(** * Logbook: replaying and writing dataset histories

    A shallow embedding of package [logbook] (the higher-order API that wraps
    an [oplog.Book]) together with the parts of package [oplog] it calls.

    Conventions of the embedding:
    - Go [int] and [int64] are 64-bit two's complement integers, written as [Z]
      with the wrap-around of arithmetic spelled out ([wrap64]);
    - a Go slice is its visible elements plus the unused tail of its backing
      array, so that re-slicing beyond [len] but within [cap] behaves as in Go;
    - a call either returns or panics ([run]); a returned Go [(T, error)] pair
      is a [res];
    - a [*oplog.Log] is the position of the log inside the book's tree (a list
      of child indices), so that writes through the pointer update the book. *)

From Stdlib Require Import ZArith Lia Bool.
From stdpp Require Import base list strings.

(** ** Outcomes *)

(** Go [error] values that occur in the package. *)
Inductive error : Type :=
| ErrNoLogbook                 (* logbook: does not exist *)
| ErrNotFound                  (* logbook: not found *)
| ErrLogTooShort               (* logbook: log is too short *)
| oplog_ErrNotFound            (* oplog.ErrNotFound *)
| oplog_Err (msg : string)     (* any other error made inside oplog *)
| Errorf (msg : string)        (* fmt.Errorf(msg) *)
| ExternalErr (msg : string).  (* an error handed back by a capability *)

Definition error_eqb (a b : error) : bool :=
  match a, b with
  | ErrNoLogbook, ErrNoLogbook => true
  | ErrNotFound, ErrNotFound => true
  | ErrLogTooShort, ErrLogTooShort => true
  | oplog_ErrNotFound, oplog_ErrNotFound => true
  | oplog_Err x, oplog_Err y => String.eqb x y
  | Errorf x, Errorf y => String.eqb x y
  | ExternalErr x, ExternalErr y => String.eqb x y
  | _, _ => false
  end.

(** A Go result pair [(T, error)]. *)
Inductive res (A : Type) : Type :=
| Ok (a : A)
| Err (e : error).
Arguments Ok {A} a.
Arguments Err {A} e.

(** A call returns a value or panics. *)
Inductive run (A : Type) : Type :=
| Returns (a : A)
| Panics.
Arguments Returns {A} a.
Arguments Panics {A}.

#[global] Instance run_ret : MRet run := fun A a => Returns a.
#[global] Instance run_bind : MBind run := fun A B k m =>
  match m with
  | Returns a => k a
  | Panics => Panics
  end.

(** Bounds-checked operations return [option]; [None] is the run-time panic. *)
Definition or_panic {A} (o : option A) : run A :=
  match o with
  | Some a => Returns a
  | None => Panics
  end.

(** ** 64-bit integers *)

Definition min_int64 : Z := (- 2 ^ 63)%Z.
Definition max_int64 : Z := (2 ^ 63 - 1)%Z.

Definition in_int64 (z : Z) : Prop := (min_int64 <= z <= max_int64)%Z.

(** Two's complement wrap-around of a 64-bit result. *)
Definition wrap64 (z : Z) : Z := ((z + 2 ^ 63) mod 2 ^ 64 - 2 ^ 63)%Z.

(** ** Slices *)

Section Slices.
Context {A : Type}.

(** [elems] are the [len] visible elements, [spare] the rest of the backing
    array up to [cap]. *)
Record slice : Type := Slice { elems : list A; spare : list A }.

Definition slice_len (s : slice) : Z := Z.of_nat (length (elems s)).
Definition slice_cap (s : slice) : Z :=
  Z.of_nat (length (elems s) + length (spare s)).

(** [[]T{}] *)
Definition slice_empty : slice := Slice [] [].

(** [append(s, x)]: writes into the spare capacity when there is some, and
    otherwise moves to a new array with [extra (len s)] unused slots, all
    holding the zero value. *)
Definition slice_append (zero : A) (extra : nat -> nat) (s : slice) (x : A) : slice :=
  match spare s with
  | [] => Slice (elems s ++ [x]) (replicate (extra (length (elems s))) zero)
  | _ :: sp => Slice (elems s ++ [x]) sp
  end.

(** [s[i]] *)
Definition slice_get (s : slice) (i : Z) : option A :=
  if (0 <=? i)%Z && (i <? slice_len s)%Z then elems s !! Z.to_nat i else None.

(** [s[i] = x] *)
Definition slice_set (s : slice) (i : Z) (x : A) : option slice :=
  if (0 <=? i)%Z && (i <? slice_len s)%Z
  then Some (Slice (<[Z.to_nat i := x]> (elems s)) (spare s))
  else None.

(** [s[:hi]]: legal for [0 <= hi <= cap(s)]. *)
Definition slice_to (s : slice) (hi : Z) : option slice :=
  if (0 <=? hi)%Z && (hi <=? slice_cap s)%Z
  then Some (Slice (take (Z.to_nat hi) (elems s ++ spare s))
                   (drop (Z.to_nat hi) (elems s ++ spare s)))
  else None.

(** [s[lo:]]: legal for [0 <= lo <= len(s)]. *)
Definition slice_from (s : slice) (lo : Z) : option slice :=
  if (0 <=? lo)%Z && (lo <=? slice_len s)%Z
  then Some (Slice (drop (Z.to_nat lo) (elems s)) (spare s))
  else None.

(** [l[i], l[j] = l[j], l[i]] for indices in range. *)
Definition swap (l : list A) (i j : nat) : list A :=
  match l !! i, l !! j with
  | Some x, Some y => <[j := x]> (<[i := y]> l)
  | _, _ => l
  end.

(** [for i := n - 1; i >= 0; i-- { opp := len(l) - 1 - i; swap i opp }] *)
Fixpoint reverse_loop (n : nat) (l : list A) : list A :=
  match n with
  | O => l
  | S i => reverse_loop i (swap l i (length l - 1 - i))
  end.

(** The slice-reversing idiom: the loop starts at [len(l)/2 - 1]. *)
Definition reverse_in_place (s : slice) : slice :=
  Slice (reverse_loop (length (elems s) / 2) (elems s)) (spare s).
End Slices.
Arguments slice A : clear implicits.

(** ** Keys and dataset references *)

(** [crypto.PrivKey] and [crypto.PubKey] are opaque to this package; they are
    kept as their marshalled bytes. *)
Definition PrivKey : Type := list Byte.byte.
Definition PubKey : Type := list Byte.byte.

Module dsref.
(** Modelled from the spec: type [dsref.Ref], the dataset address
    [{username, profileID, name, path}]. *)
Record Ref : Type := {
  Username : string;
  ProfileID : string;
  Name : string;
  Path : string;
}.
End dsref.

(** ** Package oplog *)

Module oplog.

(** Modelled from the spec: type [oplog.OpType], one of init, amend and
    remove; the numbering is the one [logEntryFromOp] relies on when it
    indexes a three-element array with [int(op.Type)-1]. *)
Definition OpType : Type := N.
Definition OpTypeInit : OpType := 1%N.
Definition OpTypeAmend : OpType := 2%N.
Definition OpTypeRemove : OpType := 3%N.

(** Modelled from the spec: type [oplog.Op], the record of a single event.
    [Type_] is the Go field [Type]. *)
Record Op : Type := {
  Type_ : OpType;
  Model : N;
  Ref : string;
  Prev : string;
  Relations : list string;
  Name : string;
  AuthorID : string;
  Timestamp : Z;
  Size : Z;
  Note : string;
}.

(** Modelled from the spec: type [oplog.Log], an ordered sequence of ops,
    nested child logs and an optional signature. *)
#[warnings="-register-all"]
Inductive Log : Type :=
  MkLog { Ops : list Op; Logs : list Log; Signature : option (list Byte.byte) }.

(** Modelled from the spec: type [oplog.Book], the author's name and id and
    the top-level logs (the signing key lives in [logbook.Book.pk]). *)
Record Book : Type := {
  authorName : string;
  authorID : string;
  logs : list Log;
}.

(** Modelled from the spec: interface [oplog.Author], of which the package
    uses the id and the public key. *)
Record Author : Type := {
  Author_AuthorID : string;
  Author_AuthorPubKey : PubKey;
}.

(** A [*Log] that points into a book: the child indices that lead to it. *)
Definition ptr : Type := list nat.

(** The parts of oplog that rest on hashing, signing and encryption, and the
    merge of two logs, are taken as given. *)
Class Primitives : Type := {
  (** [Op.Hash]: content hash of the canonical encoding of an op *)
  Op_Hash : Op -> string;
  (** [Log.Verify(pub)]: [None] is a nil error *)
  Log_Verify : Log -> PubKey -> option error;
  (** [Log.Merge(remote)]: the receiver after the merge *)
  Log_Merge : Log -> Log -> Log;
  (** [Book.FlatbufferCipher] *)
  Book_FlatbufferCipher : Book -> res (list Byte.byte);
}.

Definition with_Logs (l : Log) (ls : list Log) : Log :=
  MkLog (Ops l) ls (Signature l).
Definition with_logs (bk : Book) (ls : list Log) : Book :=
  {| authorName := authorName bk; authorID := authorID bk; logs := ls |}.

(** Induction over a log and, through their list, over its child logs. *)
Section LogInduction.
Variable P : Log -> Prop.
Hypothesis step : forall ops ls sig, Forall P ls -> P (MkLog ops ls sig).

Fixpoint Log_nested_ind (l : Log) : P l :=
  match l with
  | MkLog ops ls sig =>
      step ops ls sig
        ((fix children (cs : list Log) : Forall P cs :=
            match cs with
            | [] => @List.Forall_nil _ P
            | c :: cs' => @List.Forall_cons _ P c cs' (Log_nested_ind c) (children cs')
            end) ls)
  end.
End LogInduction.

(** Modelled from the spec: [oplog.InitLog], a log with a single op. *)
Definition InitLog (op : Op) : Log := MkLog [op] [] None.

(** Modelled from the spec: [Log.Name], the most recent name in the ops of
    the log's own model (the model of its first op). *)
Definition Log_Name (l : Log) : string :=
  match Ops l with
  | [] => EmptyString
  | o0 :: _ =>
      foldl (fun acc o =>
               if (Model o =? Model o0)%N && negb (String.eqb (Name o) EmptyString)
               then Name o else acc)
            EmptyString (Ops l)
  end.

(** Modelled from the spec: [Log.Append], which checks that the op is not
    older than the last op, appends it and drops the stored signature, and
    fails with an invalid-timestamp error (leaving the log as it was)
    otherwise. *)
Definition Log_Append (l : Log) (op : Op) : Log * option error :=
  match last (Ops l) with
  | Some tl =>
      if (Timestamp tl <=? Timestamp op)%Z
      then (MkLog (Ops l ++ [op]) (Logs l) None, None)
      else (l, Some (oplog_Err "invalid timestamp"))
  | None => (MkLog (Ops l ++ [op]) (Logs l) None, None)
  end.

(** Modelled from the spec: one step of [HeadRef], the selection of the child
    whose name equals the next element; it is the first such log of the list,
    returned with its index (counted from [i]). *)
Fixpoint find_named (name : string) (i : nat) (ls : list Log) : option (nat * Log) :=
  match ls with
  | [] => None
  | l :: rest =>
      if String.eqb (Log_Name l) name then Some (i, l)
      else find_named name (S i) rest
  end.

(** Modelled from the spec: [Log.HeadRef] and [Book.HeadRef], which descend
    through child logs, at each step selecting the child whose name is the
    next element, and fail with not-found when a step is unresolved. The
    result is the pointer to the log found, with the log itself. *)
Fixpoint descend (ls : list Log) (name : string) (rest : list string) : res (ptr * Log) :=
  match find_named name 0 ls with
  | None => Err oplog_ErrNotFound
  | Some (i, l) =>
      match rest with
      | [] => Ok ([i], l)
      | n :: rest' =>
          match descend (Logs l) n rest' with
          | Ok (p, x) => Ok (i :: p, x)
          | Err e => Err e
          end
      end
  end.

Definition Book_HeadRef (bk : Book) (names : list string) : res (ptr * Log) :=
  match names with
  | [] => Err (oplog_Err "name is required")
  | n :: rest => descend (logs bk) n rest
  end.

(** Modelled from the spec: [Log.Parent], the log whose [Logs] contains this
    one; nil for a top-level log. *)
Definition Log_Parent (p : ptr) : option ptr :=
  match p with
  | [] | [_] => None
  | _ => Some (removelast p)
  end.

(** The log a pointer leads to ([None] for a pointer that leads nowhere). *)
Fixpoint deref (ls : list Log) (p : ptr) : option Log :=
  match p with
  | [] => None
  | i :: p' =>
      match ls !! i with
      | None => None
      | Some l => match p' with [] => Some l | _ :: _ => deref (Logs l) p' end
      end
  end.

(** A write through a pointer: the log it leads to is replaced by its image
    under [f], inside the tree. *)
Fixpoint update_at (f : Log -> Log) (ls : list Log) (p : ptr) : list Log :=
  match p with
  | [] => ls
  | i :: p' =>
      alter (fun l => match p' with
                      | [] => f l
                      | _ :: _ => with_Logs l (update_at f (Logs l) p')
                      end) i ls
  end.

(** The log a pointer leads to is cut out of the list that holds it. *)
Fixpoint remove_at (ls : list Log) (p : ptr) : list Log :=
  match p with
  | [] => ls
  | i :: p' =>
      match p' with
      | [] => delete i ls
      | _ :: _ => alter (fun l => with_Logs l (remove_at (Logs l) p')) i ls
      end
  end.

Section WithPrimitives.
Context `{Primitives}.

(** Modelled from the spec: [Log.ID], the hash of the first op (the empty
    string for a log without ops, which no well-formed book holds). *)
Definition Log_ID (l : Log) : string :=
  match Ops l with
  | [] => EmptyString
  | o :: _ => Op_Hash o
  end.

(** Modelled from the spec: the search behind [Book.Log], through a log and
    its descendants, parents before children and children in order. *)
Fixpoint find_id (id : string) (l : Log) : option (ptr * Log) :=
  if String.eqb (Log_ID l) id then Some ([], l)
  else
    (fix children (i : nat) (cs : list Log) : option (ptr * Log) :=
       match cs with
       | [] => None
       | c :: cs' =>
           match find_id id c with
           | Some (p, x) => Some (i :: p, x)
           | None => children (S i) cs'
           end
       end) 0 (Logs l).

Fixpoint find_id_in (id : string) (i : nat) (ls : list Log) : option (ptr * Log) :=
  match ls with
  | [] => None
  | l :: rest =>
      match find_id id l with
      | Some (p, x) => Some (i :: p, x)
      | None => find_id_in id (S i) rest
      end
  end.

(** Modelled from the spec: [Book.Log], the log of the book whose id
    matches, or not-found. *)
Definition Book_Log (bk : Book) (id : string) : res (ptr * Log) :=
  match find_id_in id 0 (logs bk) with
  | Some r => Ok r
  | None => Err oplog_ErrNotFound
  end.

(** Modelled from the spec: [Book.AppendLog], which adds a top-level log
    and fails with a duplicate-log error when a top-level log already has
    its id. *)
Definition Book_AppendLog (bk : Book) (l : Log) : Book * option error :=
  if existsb (fun x => String.eqb (Log_ID x) (Log_ID l)) (logs bk)
  then (bk, Some (oplog_Err "duplicate log"))
  else (with_logs bk (logs bk ++ [l]), None).

(** Modelled from the spec: [Book.RemoveLog], which removes the log that a
    hierarchical name path identifies (and nothing when there is none). *)
Definition Book_RemoveLog (bk : Book) (names : list string) : Book :=
  match Book_HeadRef bk names with
  | Ok (p, _) => with_logs bk (remove_at (logs bk) p)
  | Err _ => bk
  end.
End WithPrimitives.

(** Modelled from the spec: [Log.Model], the model of the first op; on a log
    without ops the index [Ops[0]] is out of range. *)
Definition Log_Model (l : Log) : run N :=
  match Ops l with
  | [] => Panics
  | o :: _ => Returns (Model o)
  end.

End oplog.

(** ** Package logbook *)

Module logbook.

Definition authorModel : N := 0%N.
Definition nameModel : N := 1%N.
Definition branchModel : N := 2%N.
Definition versionModel : N := 3%N.
Definition publicationModel : N := 4%N.
Definition aclModel : N := 5%N.
Definition cronJobModel : N := 6%N.

Definition DefaultBranchName : string := "main".

(** What the package receives from its environment: the filesystem it
    persists to, the timestamp generator, and the allocation policy of the
    Go runtime when [append] outgrows a slice. *)
Class Env : Type := {
  (** state of the [qfs.Filesystem] *)
  FS : Type;
  (** [fs.Put(ctx, file)]: the new filesystem state and the returned pair *)
  fs_Put : FS -> string -> list Byte.byte -> FS * (string * option error);
  (** the value of the n-th call of [NewTimestamp] *)
  NewTimestamp : nat -> Z;
  (** unused slots that [append] allocates beyond the element it adds to a
      full slice of the given length *)
  append_extra : nat -> nat;
}.

(** [DatasetInfo]; [Timestamp] is [time.Unix(0, ns)], kept as the nanoseconds. *)
Record DatasetInfo : Type := {
  Ref : dsref.Ref;
  Published : bool;
  Timestamp : Z;
  CommitTitle : string;
  Size : Z;
}.

(** The zero value of [DatasetInfo]. *)
Definition DatasetInfo_zero : DatasetInfo :=
  {| Ref := {| dsref.Username := EmptyString; dsref.ProfileID := EmptyString;
               dsref.Name := EmptyString; dsref.Path := EmptyString |};
     Published := false; Timestamp := 0%Z; CommitTitle := EmptyString; Size := 0%Z |}.

Definition set_Published (b : bool) (d : DatasetInfo) : DatasetInfo :=
  {| Ref := Ref d; Published := b; Timestamp := Timestamp d;
     CommitTitle := CommitTitle d; Size := Size d |}.

Definition infoFromOp (ref : dsref.Ref) (op : oplog.Op) : DatasetInfo :=
  {| Ref := {| dsref.Username := dsref.Username ref;
               dsref.ProfileID := dsref.ProfileID ref;
               dsref.Name := dsref.Name ref;
               dsref.Path := oplog.Ref op |};
     Published := false;
     Timestamp := oplog.Timestamp op;
     CommitTitle := oplog.Note op;
     Size := oplog.Size op |}.

(** [int(x)] of an [int64] on a 64-bit platform: the same number. *)
Definition int_of_int64 (x : Z) : Z := x.

Section WithEnv.
Context `{oplog.Primitives} `{Env}.

(** [logbook.Book]. The pointer [bk] is owned by the book, so the
    [oplog.Book] is kept in place. [clock] is not a field of the Go
    struct: it counts the calls of the package variable [NewTimestamp]. *)
Record Book : Type := {
  bk : oplog.Book;
  pk : PrivKey;
  fsLocation : string;
  fs : FS;
  clock : nat;
}.

Definition BranchRef (book : Book) (ref : dsref.Ref) : res (oplog.ptr * oplog.Log) :=
  if String.eqb (dsref.Username ref) EmptyString
  then Err (Errorf "logbook: ref.Username is required")
  else if String.eqb (dsref.Name ref) EmptyString
  then Err (Errorf "logbook: ref.Name is required")
  else oplog.Book_HeadRef (bk book)
         [dsref.Username ref; dsref.Name ref; DefaultBranchName].

(** [for i := 1; i <= n; i++ { refs[len(refs)-i].Published = b }], with
    [todo] the iterations that remain and [i] the loop variable. Neither
    [len(refs)-i] nor [i++] can overflow before an index is out of range. *)
Fixpoint publish_loop (b : bool) (todo : nat) (i : Z) (refs : slice DatasetInfo)
  : run (slice DatasetInfo) :=
  match todo with
  | O => Returns refs
  | S todo' =>
      (d ← or_panic (slice_get refs (slice_len refs - i));
       refs' ← or_panic (slice_set refs (slice_len refs - i) (set_Published b d));
       publish_loop b todo' (i + 1)%Z refs')
  end.

(** The body of the loop over [l.Ops] in [Versions]. *)
Definition replay_op (ref : dsref.Ref) (refs : slice DatasetInfo) (op : oplog.Op)
  : run (slice DatasetInfo) :=
  if (oplog.Model op =? versionModel)%N then
    if (oplog.Type_ op =? oplog.OpTypeInit)%N then
      Returns (slice_append DatasetInfo_zero append_extra refs (infoFromOp ref op))
    else if (oplog.Type_ op =? oplog.OpTypeAmend)%N then
      or_panic (slice_set refs (slice_len refs - 1) (infoFromOp ref op))
    else if (oplog.Type_ op =? oplog.OpTypeRemove)%N then
      or_panic (slice_to refs (wrap64 (slice_len refs - int_of_int64 (oplog.Size op))))
    else Returns refs
  else if (oplog.Model op =? publicationModel)%N then
    if (oplog.Type_ op =? oplog.OpTypeInit)%N then
      publish_loop true (Z.to_nat (int_of_int64 (oplog.Size op))) 1 refs
    else if (oplog.Type_ op =? oplog.OpTypeRemove)%N then
      publish_loop false (Z.to_nat (int_of_int64 (oplog.Size op))) 1 refs
    else Returns refs
  else Returns refs.

(** [for _, op := range l.Ops { ... }] *)
Fixpoint replay (ref : dsref.Ref) (refs : slice DatasetInfo) (ops : list oplog.Op)
  : run (slice DatasetInfo) :=
  match ops with
  | [] => Returns refs
  | op :: rest => (refs' ← replay_op ref refs op; replay ref refs' rest)
  end.

(** What [Versions] does after the replay: reverse, then cut by offset and
    limit. *)
Definition paginate (refs : slice DatasetInfo) (offset limit : Z)
  : run (list DatasetInfo) :=
  let refs := reverse_in_place refs in
  let offset := if (offset >? slice_len refs)%Z then slice_len refs else offset in
  (refs ← or_panic (slice_from refs offset);
   if (limit <? slice_len refs)%Z
   then (refs ← or_panic (slice_to refs limit); Returns (elems refs))
   else Returns (elems refs)).

Definition Versions (book : Book) (ref : dsref.Ref) (offset limit : Z)
  : run (res (list DatasetInfo)) :=
  match BranchRef book ref with
  | Err e => Returns (Err e)
  | Ok (_, l) =>
      (refs ← replay ref slice_empty (oplog.Ops l);
       page ← paginate refs offset limit;
       Returns (Ok page))
  end.

(** *** Writing *)

Definition with_bk (book : Book) (b : oplog.Book) : Book :=
  {| bk := b; pk := pk book; fsLocation := fsLocation book;
     fs := fs book; clock := clock book |}.

(** One call of [NewTimestamp]. *)
Definition tick (book : Book) : Book :=
  {| bk := bk book; pk := pk book; fsLocation := fsLocation book;
     fs := fs book; clock := S (clock book) |}.

(** [save]: encrypt the book and put it at [fsLocation], which takes the
    location that [Put] returns. *)
Definition save (book : Book) : Book * option error :=
  match oplog.Book_FlatbufferCipher (bk book) with
  | Err e => (book, Some e)
  | Ok ciphertext =>
      let '(fs', (loc, err)) := fs_Put (fs book) (fsLocation book) ciphertext in
      ({| bk := bk book; pk := pk book; fsLocation := loc;
          fs := fs'; clock := clock book |}, err)
  end.

(** [l.Append(op)] through a pointer into the book; the caller drops
    whatever [Append] returns. *)
Definition append_at (book : Book) (l : oplog.ptr) (op : oplog.Op) : Book :=
  with_bk book
    (oplog.with_logs (bk book)
       (oplog.update_at (fun x => fst (oplog.Log_Append x op))
          (oplog.logs (bk book)) l)).

Definition authorLog (book : Book) : run (oplog.ptr * oplog.Log) :=
  match oplog.Book_Log (bk book) (oplog.authorID (bk book)) with
  | Err _ => Panics
  | Ok r => Returns r
  end.

Definition nameInitOp (book : Book) (name : string) : oplog.Op :=
  {| oplog.Type_ := oplog.OpTypeInit;
     oplog.Model := nameModel;
     oplog.Ref := EmptyString; oplog.Prev := EmptyString; oplog.Relations := [];
     oplog.Name := name;
     oplog.AuthorID := oplog.authorID (bk book);
     oplog.Timestamp := NewTimestamp (clock book);
     oplog.Size := 0%Z; oplog.Note := EmptyString |}.

Definition branchInitOp (book : Book) : oplog.Op :=
  {| oplog.Type_ := oplog.OpTypeInit;
     oplog.Model := branchModel;
     oplog.Ref := EmptyString; oplog.Prev := EmptyString; oplog.Relations := [];
     oplog.Name := DefaultBranchName;
     oplog.AuthorID := oplog.authorID (bk book);
     oplog.Timestamp := NewTimestamp (clock book);
     oplog.Size := 0%Z; oplog.Note := EmptyString |}.

(** [initName]: a name log that holds a branch log is appended to the
    children of the author's log; the result is the pointer to the branch. *)
Definition initName (book : Book) (name : string) : run (Book * oplog.ptr) :=
  let dsLog := oplog.InitLog (nameInitOp book name) in
  let book := tick book in
  let branch := oplog.InitLog (branchInitOp book) in
  let book := tick book in
  let dsLog := oplog.with_Logs dsLog (oplog.Logs dsLog ++ [branch]) in
  ('(ns, nsLog) ← authorLog book;
   Returns
     (with_bk book
        (oplog.with_logs (bk book)
           (oplog.update_at (fun x => oplog.with_Logs x (oplog.Logs x ++ [dsLog]))
              (oplog.logs (bk book)) ns)),
      ns ++ [length (oplog.Logs nsLog); 0])).

Definition WriteNameInit (book : option Book) (name : string)
  : run (option Book * option error) :=
  match book with
  | None => Returns (None, Some ErrNoLogbook)
  | Some book =>
      ('(book, _) ← initName book name;
       let '(book, err) := save book in
       Returns (Some book, err))
  end.

Definition readDatasetLog (book : Book) (ref : dsref.Ref) : res (oplog.ptr * oplog.Log) :=
  if String.eqb (dsref.Username ref) EmptyString
  then Err (Errorf "ref.Username is required")
  else if String.eqb (dsref.Name ref) EmptyString
  then Err (Errorf "ref.Name is required")
  else oplog.Book_HeadRef (bk book) [dsref.Username ref; dsref.Name ref].

Definition nameAmendOp (book : Book) (newName : string) : oplog.Op :=
  {| oplog.Type_ := oplog.OpTypeAmend;
     oplog.Model := nameModel;
     oplog.Ref := EmptyString; oplog.Prev := EmptyString; oplog.Relations := [];
     oplog.Name := newName;
     oplog.AuthorID := EmptyString;
     oplog.Timestamp := NewTimestamp (clock book);
     oplog.Size := 0%Z; oplog.Note := EmptyString |}.

Definition WriteNameAmend (book : option Book) (ref : dsref.Ref) (newName : string)
  : run (option Book * option error) :=
  match book with
  | None => Returns (None, Some ErrNoLogbook)
  | Some book =>
      match readDatasetLog book ref with
      | Err e => Returns (Some book, Some e)
      | Ok (l, _) =>
          let op := nameAmendOp book newName in
          let book := tick book in
          Returns (Some (append_at book l op), None)
      end
  end.

(** The fields of [dataset.Dataset] that the package reads. [Commit] and
    [Structure] are pointers. *)
Record Commit : Type := { Commit_Timestamp : Z; Commit_Title : string }.
Record Structure : Type := { Structure_Length : Z }.
Record Dataset : Type := {
  ds_Peername : string;
  ds_ProfileID : string;
  ds_Name : string;
  ds_Path : string;
  ds_PreviousPath : string;
  ds_Commit : option Commit;
  ds_Structure : option Structure;
}.

Definition refFromDataset (ds : Dataset) : dsref.Ref :=
  {| dsref.Username := ds_Peername ds;
     dsref.ProfileID := ds_ProfileID ds;
     dsref.Name := ds_Name ds;
     dsref.Path := ds_Path ds |}.

Definition versionSaveOp (ds : Dataset) (c : Commit) : oplog.Op :=
  {| oplog.Type_ := oplog.OpTypeInit;
     oplog.Model := versionModel;
     oplog.Ref := ds_Path ds;
     oplog.Prev := ds_PreviousPath ds;
     oplog.Relations := [];
     oplog.Name := EmptyString;
     oplog.AuthorID := EmptyString;
     oplog.Timestamp := Commit_Timestamp c;
     oplog.Size := match ds_Structure ds with
                   | Some st => Structure_Length st
                   | None => 0%Z
                   end;
     oplog.Note := Commit_Title c |}.

(** [appendVersionSave]; reading [ds.Commit.Timestamp] through a nil
    [Commit] panics. *)
Definition appendVersionSave (book : Book) (l : oplog.ptr) (ds : Dataset) : run Book :=
  match ds_Commit ds with
  | None => Panics
  | Some c => Returns (append_at book l (versionSaveOp ds c))
  end.

Definition WriteVersionSave (book : option Book) (ds : Dataset)
  : run (option Book * option error) :=
  match book with
  | None => Returns (None, Some ErrNoLogbook)
  | Some book =>
      let ref := refFromDataset ds in
      match BranchRef book ref with
      | Err e =>
          if error_eqb e oplog_ErrNotFound then
            ('(book, branchLog) ← initName book (dsref.Name ref);
             book ← appendVersionSave book branchLog ds;
             let '(book, err) := save book in
             Returns (Some book, err))
          else Returns (Some book, Some e)
      | Ok (branchLog, _) =>
          (book ← appendVersionSave book branchLog ds;
           let '(book, err) := save book in
           Returns (Some book, err))
      end
  end.

Definition versionAmendOp (ds : Dataset) (c : Commit) : oplog.Op :=
  {| oplog.Type_ := oplog.OpTypeAmend;
     oplog.Model := versionModel;
     oplog.Ref := ds_Path ds;
     oplog.Prev := ds_PreviousPath ds;
     oplog.Relations := [];
     oplog.Name := EmptyString;
     oplog.AuthorID := EmptyString;
     oplog.Timestamp := Commit_Timestamp c;
     oplog.Size := 0%Z;
     oplog.Note := Commit_Title c |}.

Definition WriteVersionAmend (book : option Book) (ds : Dataset)
  : run (option Book * option error) :=
  match book with
  | None => Returns (None, Some ErrNoLogbook)
  | Some book =>
      match BranchRef book (refFromDataset ds) with
      | Err e => Returns (Some book, Some e)
      | Ok (l, _) =>
          match ds_Commit ds with
          | None => Panics
          | Some c =>
              let '(book, err) := save (append_at book l (versionAmendOp ds c)) in
              Returns (Some book, err)
          end
      end
  end.

(** The ops of the verbs that carry a count: everything but type, model,
    size and relations is left at its zero value. *)
Definition countOp (type : oplog.OpType) (model : N) (size : Z)
    (relations : list string) : oplog.Op :=
  {| oplog.Type_ := type;
     oplog.Model := model;
     oplog.Ref := EmptyString; oplog.Prev := EmptyString;
     oplog.Relations := relations;
     oplog.Name := EmptyString; oplog.AuthorID := EmptyString;
     oplog.Timestamp := 0%Z;
     oplog.Size := size;
     oplog.Note := EmptyString |}.

(** The shape shared by the verbs that look the branch up, append one op
    and save. *)
Definition write_branch_op (book : option Book) (ref : dsref.Ref) (op : oplog.Op)
  : run (option Book * option error) :=
  match book with
  | None => Returns (None, Some ErrNoLogbook)
  | Some book =>
      match BranchRef book ref with
      | Err e => Returns (Some book, Some e)
      | Ok (l, _) =>
          let '(book, err) := save (append_at book l op) in
          Returns (Some book, err)
      end
  end.

Definition WriteVersionDelete (book : option Book) (ref : dsref.Ref) (revisions : Z) :=
  write_branch_op book ref
    (countOp oplog.OpTypeRemove versionModel revisions []).

Definition WritePublish (book : option Book) (ref : dsref.Ref) (revisions : Z)
    (destinations : list string) :=
  write_branch_op book ref
    (countOp oplog.OpTypeInit publicationModel revisions destinations).

Definition WriteUnpublish (book : option Book) (ref : dsref.Ref) (revisions : Z)
    (destinations : list string) :=
  write_branch_op book ref
    (countOp oplog.OpTypeRemove publicationModel revisions destinations).

Definition WriteCronJobRan (book : option Book) (number : Z) (ref : dsref.Ref) :=
  write_branch_op book ref
    (countOp oplog.OpTypeInit cronJobModel number []).

(** *** Logs of other peers *)

Definition MergeLog (book : option Book) (sender : oplog.Author) (lg : oplog.Log)
  : run (option Book * option error) :=
  match oplog.Log_Verify lg (oplog.Author_AuthorPubKey sender) with
  | Some e => Returns (book, Some e)
  | None =>
      match book with
      | None => Panics
      | Some book =>
          match oplog.Book_Log (bk book) (oplog.Log_ID lg) with
          | Err e =>
              if error_eqb e oplog_ErrNotFound then
                let '(book, err) :=
                  save (with_bk book (fst (oplog.Book_AppendLog (bk book) lg))) in
                Returns (Some book, err)
              else Returns (Some book, Some e)
          | Ok (found, _) =>
              let '(book, err) :=
                save (with_bk book
                        (oplog.with_logs (bk book)
                           (oplog.update_at (fun x => oplog.Log_Merge x lg)
                              (oplog.logs (bk book)) found))) in
              Returns (Some book, err)
          end
      end
  end.

(** [for { p := root.Parent(); if p == nil { break }; root = p }]; a
    pointer of length n has fewer than n ancestors. *)
Fixpoint root_of (fuel : nat) (root : oplog.ptr) : oplog.ptr :=
  match fuel with
  | O => root
  | S fuel' =>
      match oplog.Log_Parent root with
      | None => root
      | Some p => root_of fuel' p
      end
  end.

Definition dsRefToLogPath (ref : dsref.Ref) : list string :=
  [dsref.Username ref; dsref.Name ref].

Definition RemoveLog (book : option Book) (sender : oplog.Author) (ref : dsref.Ref)
  : run (option Book * option error) :=
  match book with
  | None => Panics
  | Some book =>
      match BranchRef book ref with
      | Err e => Returns (Some book, Some e)
      | Ok (l, _) =>
          (root ← or_panic (oplog.deref (oplog.logs (bk book)) (root_of (length l) l));
           if negb (String.eqb (oplog.Log_ID root) (oplog.Author_AuthorID sender))
           then Returns (Some book, Some (Errorf "authors can only remove logs they own"))
           else
             let '(book, err) :=
               save (with_bk book (oplog.Book_RemoveLog (bk book) (dsRefToLogPath ref))) in
             Returns (Some book, err))
      end
  end.

(** [for _, ds := range history { book.appendVersionSave(branchLog, ds) }] *)
Fixpoint appendHistory (book : Book) (branchLog : oplog.ptr) (history : list Dataset)
  : run Book :=
  match history with
  | [] => Returns book
  | ds :: rest =>
      (book ← appendVersionSave book branchLog ds;
       appendHistory book branchLog rest)
  end.

Definition ConstructDatasetLog (book : option Book) (ref : dsref.Ref)
    (history : list Dataset) : run (option Book * option error) :=
  match book with
  | None => Panics
  | Some book =>
      match BranchRef book ref with
      | Ok _ => Returns (Some book, Some ErrLogTooShort)
      | Err _ =>
          ('(book, branchLog) ← initName book (dsref.Name ref);
           book ← appendHistory book branchLog history;
           let '(book, err) := save book in
           Returns (Some book, err))
      end
  end.

(** *** Reading *)

Definition UserDatasetRef (book : Book) (ref : dsref.Ref) : res oplog.Log :=
  if String.eqb (dsref.Username ref) EmptyString
  then Err (Errorf "logbook: reference Username is required")
  else if String.eqb (dsref.Name ref) EmptyString
  then Err (Errorf "logbook: reference Name is required")
  else
    match oplog.Book_HeadRef (bk book) [dsref.Username ref] with
    | Err e => Err e
    | Ok (_, author) =>
        match oplog.Book_HeadRef (bk book) [dsref.Username ref; dsref.Name ref] with
        | Err e => Err e
        | Ok (_, ds) => Ok (oplog.MkLog (oplog.Ops author) [ds] None)
        end
    end.

Definition DatasetRef (book : Book) (ref : dsref.Ref) : res (oplog.ptr * oplog.Log) :=
  if String.eqb (dsref.Username ref) EmptyString
  then Err (Errorf "logbook: ref.Username is required")
  else if String.eqb (dsref.Name ref) EmptyString
  then Err (Errorf "logbook: ref.Name is required")
  else oplog.Book_HeadRef (bk book) [dsref.Username ref; dsref.Name ref].

(** [DsrefAliasForLog]; the argument is a pointer that may be nil. *)
Definition DsrefAliasForLog (log : option oplog.Log) : run (res dsref.Ref) :=
  match log with
  | None => Returns (Err (Errorf "logbook: log is required"))
  | Some log =>
      m ← oplog.Log_Model log;
      if negb (m =? authorModel)%N
      then Returns (Err (Errorf "logbook: log isn't rooted as an author"))
      else
        match oplog.Logs log with
        | [ds] =>
            Returns (Ok {| dsref.Username := oplog.Log_Name log;
                           dsref.ProfileID := EmptyString;
                           dsref.Name := oplog.Log_Name ds;
                           dsref.Path := EmptyString |})
        | _ => Returns (Err (Errorf "logbook: ambiguous dataset reference"))
        end
  end.

(** [LogEntry]; [Timestamp] is [time.Unix(0, ns)], kept as the nanoseconds. *)
Record LogEntry : Type := {
  Entry_Timestamp : Z;
  Entry_Author : string;
  Entry_Action : string;
  Entry_Note : string;
}.

(** The map [actionStrings], from a model to its array of three strings. *)
Definition actionStrings : list (N * list string) :=
  [(authorModel, ["create profile"; "update profile"; "delete profile"]);
   (nameModel, ["init dataset"; "rename dataset"; "delete dataset"]);
   (branchModel, ["init branch"; "rename branch"; "delete branch"]);
   (versionModel, ["save commit"; "amend commit"; "remove commit"]);
   (publicationModel, ["publish"; EmptyString; "unpublish"]);
   (aclModel, ["update access"; "update access"; "remove all access"]);
   (cronJobModel, ["ran update"; EmptyString; EmptyString])]%string.

(** [actionStrings[m]]: a key that is not in the map yields the zero value,
    an array of three empty strings. *)
Definition actionStrings_at (m : N) : list string :=
  match list_find (fun kv => bool_decide (kv.1 = m)) actionStrings with
  | Some (_, (_, a)) => a
  | None => [EmptyString; EmptyString; EmptyString]
  end.

(** [a[i]] on an array: an index out of range panics. *)
Definition array_at (a : list string) (i : Z) : run string :=
  if (0 <=? i)%Z && (i <? Z.of_nat (length a))%Z
  then or_panic (a !! Z.to_nat i)
  else Panics.

Definition logEntryFromOp (author : string) (op : oplog.Op) : run LogEntry :=
  let note :=
    if String.eqb (oplog.Note op) EmptyString
       && negb (String.eqb (oplog.Name op) EmptyString)
    then oplog.Name op else oplog.Note op in
  action ← array_at (actionStrings_at (oplog.Model op)) (Z.of_N (oplog.Type_ op) - 1);
  Returns {| Entry_Timestamp := oplog.Timestamp op;
             Entry_Author := author;
             Entry_Action := action;
             Entry_Note := note |}.

(** The loop of [LogEntries] over [l.Ops]: while [offset] is positive an op
    is skipped and [offset] goes down by one; otherwise its entry is appended
    and the loop ends as soon as [len(res) == limit]. *)
Fixpoint logEntries_loop (author : string) (limit offset : Z) (res : list LogEntry)
    (ops : list oplog.Op) : run (list LogEntry) :=
  match ops with
  | [] => Returns res
  | op :: rest =>
      if (offset >? 0)%Z then logEntries_loop author limit (offset - 1)%Z res rest
      else
        entry ← logEntryFromOp author op;
        let res := res ++ [entry] in
        if (Z.of_nat (length res) =? limit)%Z then Returns res
        else logEntries_loop author limit offset res rest
  end.

Definition LogEntries (book : Book) (ref : dsref.Ref) (offset limit : Z)
  : run (res (list LogEntry)) :=
  match BranchRef book ref with
  | Err e => Returns (Err e)
  | Ok (_, l) =>
      entries ← logEntries_loop (dsref.Username ref) limit offset [] (oplog.Ops l);
      Returns (Ok entries)
  end.

(** *** The human-oriented representation *)

Definition modelString (m : N) : string :=
  if (m =? authorModel)%N then "user"
  else if (m =? nameModel)%N then "name"
  else if (m =? branchModel)%N then "branch"
  else if (m =? versionModel)%N then "version"
  else if (m =? publicationModel)%N then "publication"
  else if (m =? aclModel)%N then "acl"
  else if (m =? cronJobModel)%N then "cronJob"
  else EmptyString.

Definition opTypeString (op : oplog.OpType) : string :=
  if (op =? oplog.OpTypeInit)%N then "init"
  else if (op =? oplog.OpTypeAmend)%N then "amend"
  else if (op =? oplog.OpTypeRemove)%N then "remove"
  else EmptyString.

(** The struct [Op] of package logbook; [Op_Timestamp] is [time.Unix(0, ns)],
    kept as the nanoseconds. *)
Record Op : Type := {
  Op_Type : string;
  Op_Model : string;
  Op_Ref : string;
  Op_Prev : string;
  Op_Relations : list string;
  Op_Name : string;
  Op_AuthorID : string;
  Op_Timestamp : Z;
  Op_Size : Z;
  Op_Note : string;
}.

(** The struct [Log] of package logbook. *)
#[warnings="-register-all"]
Inductive Log : Type := MkLog { Log_Ops : list Op; Log_Logs : list Log }.

Definition newOp (op : oplog.Op) : Op :=
  {| Op_Type := opTypeString (oplog.Type_ op);
     Op_Model := modelString (oplog.Model op);
     Op_Ref := oplog.Ref op;
     Op_Prev := oplog.Prev op;
     Op_Relations := oplog.Relations op;
     Op_Name := oplog.Name op;
     Op_AuthorID := oplog.AuthorID op;
     Op_Timestamp := oplog.Timestamp op;
     Op_Size := oplog.Size op;
     Op_Note := oplog.Note op |}.

(** [newLog]; a nil and an empty slice of child logs are the same list. *)
Fixpoint newLog (lg : oplog.Log) : Log :=
  MkLog (map newOp (oplog.Ops lg))
        ((fix children (cs : list oplog.Log) : list Log :=
            match cs with
            | [] => []
            | c :: cs' => newLog c :: children cs'
            end) (oplog.Logs lg)).

(** [RawLogs]; [book.bk.Logs()] are the top-level logs. *)
Definition RawLogs (book : Book) : list Log := map newLog (oplog.logs (bk book)).

End WithEnv.

End logbook.

(** ** The replay in the words of the specification *)

Module spec.
Import logbook.

(** The last [n] entries get their published flag set to [b]. *)
Definition mark_last (b : bool) (n : nat) (state : list DatasetInfo) : list DatasetInfo :=
  imap (fun j d => if decide (length state - n <= j) then set_Published b d else d) state.

(** One transition on the ordered list of entries: version/init appends the
    entry built from the op, version/amend replaces the last entry,
    version/remove of size n removes the last n entries, publication/init
    and publication/remove of size n set the flag of the last n entries, and
    every other op leaves the list as it is. *)
Definition step (ref : dsref.Ref) (state : list DatasetInfo) (op : oplog.Op)
  : list DatasetInfo :=
  if (oplog.Model op =? versionModel)%N then
    if (oplog.Type_ op =? oplog.OpTypeInit)%N then state ++ [infoFromOp ref op]
    else if (oplog.Type_ op =? oplog.OpTypeAmend)%N then
      match state with
      | [] => []
      | _ :: _ => take (length state - 1) state ++ [infoFromOp ref op]
      end
    else if (oplog.Type_ op =? oplog.OpTypeRemove)%N then
      take (length state - Z.to_nat (oplog.Size op)) state
    else state
  else if (oplog.Model op =? publicationModel)%N then
    if (oplog.Type_ op =? oplog.OpTypeInit)%N then
      mark_last true (Z.to_nat (oplog.Size op)) state
    else if (oplog.Type_ op =? oplog.OpTypeRemove)%N then
      mark_last false (Z.to_nat (oplog.Size op)) state
    else state
  else state.

(** The ops are walked in insertion order. *)
Definition replay_from (ref : dsref.Ref) (state : list DatasetInfo) (ops : list oplog.Op)
  : list DatasetInfo :=
  foldl (step ref) state ops.

Definition replay (ref : dsref.Ref) (ops : list oplog.Op) : list DatasetInfo :=
  replay_from ref [] ops.

(** An op has entries to act on: an amend finds a last entry, a remove has a
    size between zero and the number of entries, a publication op has a size
    of at most the number of entries. *)
Definition applicable (entries : nat) (op : oplog.Op) : bool :=
  if (oplog.Model op =? versionModel)%N then
    if (oplog.Type_ op =? oplog.OpTypeInit)%N then true
    else if (oplog.Type_ op =? oplog.OpTypeAmend)%N then bool_decide (0 < entries)
    else if (oplog.Type_ op =? oplog.OpTypeRemove)%N then
      bool_decide (0 <= oplog.Size op <= Z.of_nat entries)%Z
    else true
  else if (oplog.Model op =? publicationModel)%N then
    if (oplog.Type_ op =? oplog.OpTypeInit)%N || (oplog.Type_ op =? oplog.OpTypeRemove)%N
    then bool_decide (oplog.Size op <= Z.of_nat entries)%Z
    else true
  else true.

(** Every op of the sequence is applicable when its turn comes. *)
Fixpoint replayable (ref : dsref.Ref) (state : list DatasetInfo) (ops : list oplog.Op)
  : bool :=
  match ops with
  | [] => true
  | op :: rest =>
      applicable (length state) op && replayable ref (step ref state op) rest
  end.

Definition is_version_op (type : oplog.OpType) (op : oplog.Op) : bool :=
  (oplog.Model op =? versionModel)%N && (oplog.Type_ op =? type)%N.

(** The type of an op is one of init, amend and remove. *)
Definition known_type (op : oplog.Op) : bool :=
  (1 <=? oplog.Type_ op)%N && (oplog.Type_ op <=? 3)%N.

(** The entry of an op of known type: timestamp and author, the action string
    of its model and type, and as note the op's note or, when that is empty,
    its name. *)
Definition entry (author : string) (op : oplog.Op) : LogEntry :=
  {| Entry_Timestamp := oplog.Timestamp op;
     Entry_Author := author;
     Entry_Action :=
       default EmptyString
         (actionStrings_at (oplog.Model op) !! (N.to_nat (oplog.Type_ op) - 1));
     Entry_Note :=
       if String.eqb (oplog.Note op) EmptyString then oplog.Name op
       else oplog.Note op |}.

(** The ops that [LogEntries] turns into entries: those after the first
    [offset] ones, cut to [limit] when [limit] is positive. *)
Definition window (offset limit : Z) (ops : list oplog.Op) : list oplog.Op :=
  if (0 <? limit)%Z
  then take (Z.to_nat limit) (drop (Z.to_nat offset) ops)
  else drop (Z.to_nat offset) ops.

(** The ops that the loop reaches when it starts with [res], which is shorter
    than a positive [limit]. *)
Definition loop_window (limit offset : Z) (res : list LogEntry) (ops : list oplog.Op)
  : list oplog.Op :=
  if (0 <? limit)%Z
  then take (Z.to_nat limit - length res) (drop (Z.to_nat offset) ops)
  else drop (Z.to_nat offset) ops.

(** An op whose model is one of the seven models and whose type is one of
    the three types. *)
Definition known_op (op : oplog.Op) : bool :=
  (oplog.Model op <=? cronJobModel)%N && known_type op.

(** Every op of a log and of its descendants satisfies [P]. *)
Fixpoint all_ops (P : oplog.Op -> bool) (l : oplog.Log) : bool :=
  forallb P (oplog.Ops l) &&
  (fix children (cs : list oplog.Log) : bool :=
     match cs with
     | [] => true
     | c :: cs' => all_ops P c && children cs'
     end) (oplog.Logs l).

(** A log and its descendants without their signatures. *)
Fixpoint unsigned (l : oplog.Log) : oplog.Log :=
  oplog.MkLog (oplog.Ops l)
    ((fix children (cs : list oplog.Log) : list oplog.Log :=
        match cs with
        | [] => []
        | c :: cs' => unsigned c :: children cs'
        end) (oplog.Logs l))
    None.


(** Newest first, then [offset] entries skipped and at most [limit] kept. *)
Definition page (state : list DatasetInfo) (offset limit : Z) : list DatasetInfo :=
  take (Z.to_nat limit) (drop (Z.to_nat offset) (reverse state)).
End spec.

(** ** A concrete environment and book *)

Module demo.
Import logbook.

(** A stand-in for the content hash: the name and the author id of the op. *)
Definition hash (op : oplog.Op) : string :=
  oplog.Name op +:+ "#" +:+ oplog.AuthorID op.

(** A log verifies against a key when its signature is that key. *)
Definition verify (l : oplog.Log) (pub : PubKey) : option error :=
  match oplog.Signature l with
  | Some sig =>
      if String.eqb (String.string_of_list_byte sig) (String.string_of_list_byte pub)
      then None
      else Some (ExternalErr "invalid signature")
  | None => Some (ExternalErr "invalid signature")
  end.

(** The longer sequence of ops wins. *)
Definition merge (l r : oplog.Log) : oplog.Log :=
  if length (oplog.Ops l) <? length (oplog.Ops r)
  then oplog.MkLog (oplog.Ops r) (oplog.Logs l) (oplog.Signature r)
  else l.

Definition cipher (b : oplog.Book) : res (list Byte.byte) :=
  Ok (String.list_byte_of_string (oplog.authorName b)).

#[global] Instance primitives : oplog.Primitives := {|
  oplog.Op_Hash := hash;
  oplog.Log_Verify := verify;
  oplog.Log_Merge := merge;
  oplog.Book_FlatbufferCipher := cipher;
|}.

(** An in-memory filesystem that records every file put into it and answers
    with the path it was given. *)
#[global] Instance env : Env := {|
  FS := list (string * list Byte.byte);
  fs_Put := fun files path data => (files ++ [(path, data)], (path, None));
  NewTimestamp := fun n => (1000 + Z.of_nat n)%Z;
  (* a full slice of length n moves to an array of capacity 2n *)
  append_extra := Nat.pred;
|}.

Definition op (type : oplog.OpType) (model : N) (name : string) (size : Z) : oplog.Op :=
  {| oplog.Type_ := type; oplog.Model := model;
     oplog.Ref := EmptyString; oplog.Prev := EmptyString; oplog.Relations := [];
     oplog.Name := name; oplog.AuthorID := "QmAlice";
     oplog.Timestamp := 0%Z; oplog.Size := size; oplog.Note := EmptyString |}.

(** A version op, with the path it records. *)
Definition version (type : oplog.OpType) (path : string) (size : Z) : oplog.Op :=
  {| oplog.Type_ := type; oplog.Model := versionModel;
     oplog.Ref := path; oplog.Prev := EmptyString; oplog.Relations := [];
     oplog.Name := EmptyString; oplog.AuthorID := EmptyString;
     oplog.Timestamp := 0%Z; oplog.Size := size; oplog.Note := EmptyString |}.

(** The branch [main], holding the given ops after its init op. *)
Definition branch_log (ops : list oplog.Op) : oplog.Log :=
  oplog.MkLog (op oplog.OpTypeInit branchModel "main" 0 :: ops) [] None.

(** The log of alice, with one dataset [weather] and its branch [main]. *)
Definition author_log (ops : list oplog.Op) : oplog.Log :=
  oplog.MkLog [op oplog.OpTypeInit authorModel "alice" 0]
    [oplog.MkLog [op oplog.OpTypeInit nameModel "weather" 0] [branch_log ops] None]
    None.

(** The book of alice. *)
Definition book_with (ops : list oplog.Op) : Book :=
  {| bk := {| oplog.authorName := "alice";
              oplog.authorID := "alice#QmAlice";
              oplog.logs := [author_log ops] |};
     pk := [];
     fsLocation := "/mem/logbook";
     fs := [];
     clock := 0 |}.

Definition weather : dsref.Ref :=
  {| dsref.Username := "alice"; dsref.ProfileID := EmptyString;
     dsref.Name := "weather"; dsref.Path := EmptyString |}.

Definition info (path : string) (published : bool) : DatasetInfo :=
  {| Ref := {| dsref.Username := "alice"; dsref.ProfileID := EmptyString;
               dsref.Name := "weather"; dsref.Path := path |};
     Published := published; Timestamp := 0%Z;
     CommitTitle := EmptyString; Size := 0%Z |}.

(** Three saves, the last two of them deleted, the remaining one published. *)
Definition history : list oplog.Op :=
  [version oplog.OpTypeInit "Qa" 0; version oplog.OpTypeInit "Qb" 0;
   version oplog.OpTypeInit "Qc" 0; version oplog.OpTypeRemove EmptyString 2;
   op oplog.OpTypeInit publicationModel EmptyString 1].

(** Three saves. *)
Definition three_saves : list oplog.Op :=
  [version oplog.OpTypeInit "Qa" 0; version oplog.OpTypeInit "Qb" 0;
   version oplog.OpTypeInit "Qc" 0].

(** One save, then a publication of two versions. *)
Definition publish_two_of_one : list oplog.Op :=
  [version oplog.OpTypeInit "Qa" 0; op oplog.OpTypeInit publicationModel EmptyString 2].

(** A delete of one version with nothing saved. *)
Definition delete_of_none : list oplog.Op := [version oplog.OpTypeRemove EmptyString 1].

(** An amend with nothing saved. *)
Definition amend_of_none : list oplog.Op := [version oplog.OpTypeAmend "Qb" 0].

(** Alice as a sender, and bob, who owns nothing in her book. *)
Definition alice : oplog.Author :=
  {| oplog.Author_AuthorID := "alice#QmAlice";
     oplog.Author_AuthorPubKey := String.list_byte_of_string "alice-key" |}.
Definition bob : oplog.Author :=
  {| oplog.Author_AuthorID := "bob#QmBob";
     oplog.Author_AuthorPubKey := String.list_byte_of_string "bob-key" |}.

(** The log of bob, unsigned and signed by him. *)
Definition bob_log (signature : option (list Byte.byte)) : oplog.Log :=
  oplog.MkLog
    [{| oplog.Type_ := oplog.OpTypeInit; oplog.Model := authorModel;
        oplog.Ref := EmptyString; oplog.Prev := EmptyString; oplog.Relations := [];
        oplog.Name := "bob"; oplog.AuthorID := "QmBob";
        oplog.Timestamp := 0%Z; oplog.Size := 0%Z; oplog.Note := EmptyString |}]
    [] signature.

(** The first version of a dataset, committed at time 2000. *)
Definition first_save (peername name : string) : Dataset :=
  {| ds_Peername := peername; ds_ProfileID := EmptyString; ds_Name := name;
     ds_Path := "Qa"; ds_PreviousPath := EmptyString;
     ds_Commit := Some {| Commit_Timestamp := 2000%Z; Commit_Title := "first" |};
     ds_Structure := Some {| Structure_Length := 42%Z |} |}.

Definition climate : dsref.Ref :=
  {| dsref.Username := "alice"; dsref.ProfileID := EmptyString;
     dsref.Name := "climate"; dsref.Path := EmptyString |}.

(** The second version of a dataset, committed at time 3000, without a
    structure. *)
Definition second_save (peername name : string) : Dataset :=
  {| ds_Peername := peername; ds_ProfileID := EmptyString; ds_Name := name;
     ds_Path := "Qb"; ds_PreviousPath := "Qa";
     ds_Commit := Some {| Commit_Timestamp := 3000%Z; Commit_Title := "second" |};
     ds_Structure := None |}.

(** The version that [Versions] shows for a save of [first_save] and of
    [second_save]. *)
Definition first_info (name : string) : DatasetInfo :=
  {| Ref := {| dsref.Username := "alice"; dsref.ProfileID := EmptyString;
               dsref.Name := name; dsref.Path := "Qa" |};
     Published := false; Timestamp := 2000%Z;
     CommitTitle := "first"; Size := 42%Z |}.
Definition second_info (name : string) : DatasetInfo :=
  {| Ref := {| dsref.Username := "alice"; dsref.ProfileID := EmptyString;
               dsref.Name := name; dsref.Path := "Qb" |};
     Published := false; Timestamp := 3000%Z;
     CommitTitle := "second"; Size := 0%Z |}.

(** The versions of [three_saves] as the replay holds them: three versions,
    oldest first, in an array of capacity four. *)
Definition three_versions : slice DatasetInfo :=
  Slice [info "Qa" false; info "Qb" false; info "Qc" false] [DatasetInfo_zero].

(** The entry of a version save of alice. *)
Definition save_entry : LogEntry :=
  {| Entry_Timestamp := 0%Z; Entry_Author := "alice";
     Entry_Action := "save commit"; Entry_Note := EmptyString |}.

(** A book of alice with the given logs. *)
Definition book_of (logs : list oplog.Log) : Book :=
  {| bk := {| oplog.authorName := "alice";
              oplog.authorID := "alice#QmAlice";
              oplog.logs := logs |};
     pk := [];
     fsLocation := "/mem/logbook";
     fs := [];
     clock := 0 |}.

(** A dataset log with its branch [main]. *)
Definition dataset_log (name : string) (ops : list oplog.Op) : oplog.Log :=
  oplog.MkLog [op oplog.OpTypeInit nameModel name 0] [branch_log ops] None.

(** The book of alice with two datasets: [weather] with three saves and
    [climate] with one. *)
Definition two_datasets_log : oplog.Log :=
  oplog.MkLog [op oplog.OpTypeInit authorModel "alice" 0]
    [dataset_log "weather" three_saves;
     dataset_log "climate" [version oplog.OpTypeInit "Qx" 0]]
    None.
Definition two_datasets : Book := book_of [two_datasets_log].

(** The log of bob with a dataset [rain] of one version, signed by him. *)
Definition bob_rain : oplog.Log :=
  oplog.MkLog (oplog.Ops (bob_log None))
    [dataset_log "rain" [version oplog.OpTypeInit "Qr" 0]]
    (Some (oplog.Author_AuthorPubKey bob)).
Definition rain : dsref.Ref :=
  {| dsref.Username := "bob"; dsref.ProfileID := EmptyString;
     dsref.Name := "rain"; dsref.Path := EmptyString |}.
End demo.

(** * Properties *)

(** ** Slices *)

(** Case analysis on the next comparison of 64-bit integers in the goal. *)
Ltac case_cmp :=
  match goal with
  | |- context [(?a <=? ?b)%Z] => destruct (Z.leb_spec a b)
  | |- context [(?a <? ?b)%Z] => destruct (Z.ltb_spec a b)
  | |- context [(?a >? ?b)%Z] => destruct (Z.gtb_spec a b)
  end.

Section SliceFacts.
Context {A : Type}.
Implicit Types (l : list A) (s : slice A).

Lemma swap_length l i j : length (swap l i j) = length l.
Proof.
  unfold swap. destruct (l !! i), (l !! j); try done.
  by rewrite !length_insert.
Qed.

Lemma swap_lookup l i j m :
  i < length l -> j < length l ->
  swap l i j !! m =
    if decide (m = j) then l !! i else if decide (m = i) then l !! j else l !! m.
Proof.
  intros Hi Hj. unfold swap.
  destruct (lookup_lt_is_Some_2 l i Hi) as [x Hx].
  destruct (lookup_lt_is_Some_2 l j Hj) as [y Hy].
  rewrite Hx, Hy.
  destruct (decide (m = j)) as [->|Hmj].
  - rewrite list_lookup_insert_eq; [done|]. by rewrite length_insert.
  - rewrite list_lookup_insert_ne by done.
    destruct (decide (m = i)) as [->|Hmi].
    + by rewrite list_lookup_insert_eq.
    + by rewrite list_lookup_insert_ne.
Qed.

Lemma reverse_loop_length n l : length (reverse_loop n l) = length l.
Proof.
  revert l. induction n as [|n IH]; intros l; simpl; [done|].
  by rewrite IH, swap_length.
Qed.

(** After the iterations [n-1 .. 0] the first and the last [n] elements have
    changed places, mirrored, and the middle is untouched. *)
Lemma reverse_loop_lookup n l j :
  2 * n <= length l -> j < length l ->
  reverse_loop n l !! j =
    if decide (j < n \/ length l - n <= j) then l !! (length l - 1 - j) else l !! j.
Proof.
  revert l j. induction n as [|n IH]; intros l j Hn Hj; simpl.
  - destruct (decide _) as [[?|?]|?]; [lia|lia|done].
  - rewrite IH by (rewrite ?swap_length; lia).
    rewrite swap_length.
    destruct (decide (j < n \/ length l - n <= j));
      rewrite swap_lookup by lia;
      repeat case_decide; try lia; try done; f_equal; lia.
Qed.

Lemma reverse_loop_reverse l : reverse_loop (length l / 2) l = reverse l.
Proof.
  pose proof (Nat.div_mod_eq (length l) 2) as Hdiv.
  pose proof (Nat.mod_upper_bound (length l) 2) as Hmod.
  apply list_eq. intros j.
  destruct (decide (j < length l)) as [Hj|Hj].
  - rewrite reverse_loop_lookup by lia.
    rewrite reverse_lookup by done.
    destruct (decide _) as [?|?]; f_equal; lia.
  - rewrite !lookup_ge_None_2; [done| |].
    + rewrite length_reverse. lia.
    + rewrite reverse_loop_length. lia.
Qed.

Lemma reverse_in_place_elems s : elems (reverse_in_place s) = reverse (elems s).
Proof. apply reverse_loop_reverse. Qed.
End SliceFacts.

(** ** Replay and pagination *)

Section ReplayFacts.
Import logbook.
Context `{Env}.
Implicit Types (refs : slice DatasetInfo) (ops : list oplog.Op).

(** Pagination of a slice with non-negative offset and limit never panics,
    and yields the page of the reversed entries. *)
Lemma paginate_page refs offset limit :
  (0 <= offset)%Z -> (0 <= limit)%Z ->
  paginate refs offset limit = Returns (spec.page (elems refs) offset limit).
Proof.
  intros Ho Hl. unfold paginate, spec.page.
  rewrite <- (reverse_in_place_elems refs).
  generalize (reverse_in_place refs). clear refs. intros [e sp].
  unfold slice_from, slice_to, slice_cap, slice_len. simpl.
  destruct (Z.gtb_spec offset (Z.of_nat (length e))); simpl;
    repeat (case_cmp; simpl); rewrite ?length_drop, ?Nat2Z.id in *; try lia; f_equal.
  all: try by rewrite take_app_le by (rewrite length_drop; lia).
  all: try (rewrite !drop_ge by lia; by rewrite take_nil).
  all: by rewrite take_ge by (rewrite length_drop; lia).
Qed.

(** With a negative offset or a negative limit one of the two re-slicings
    is out of range. *)
Lemma paginate_negative refs offset limit :
  (offset < 0 \/ limit < 0)%Z -> paginate refs offset limit = Panics.
Proof.
  intros Hneg. unfold paginate.
  generalize (reverse_in_place refs). clear refs. intros [e sp].
  unfold slice_from, slice_to, slice_cap, slice_len. simpl.
  destruct (Z.gtb_spec offset (Z.of_nat (length e))); simpl;
    repeat (case_cmp; simpl); rewrite ?length_drop, ?Nat2Z.id in *; try lia; done.
Qed.

Lemma wrap64_small z : in_int64 z -> wrap64 z = z.
Proof.
  unfold in_int64, min_int64, max_int64, wrap64. intros Hz.
  rewrite Z.mod_small; lia.
Qed.

(** The loop that sets the flag, started at [i = k + 1] with [n] iterations
    to go, rewrites the entries [len - k - n .. len - k - 1]. *)
Lemma publish_loop_marks b n k refs :
  k + n <= length (elems refs) ->
  publish_loop b n (Z.of_nat (S k)) refs =
    Returns (Slice
      (imap (fun j d =>
               if decide (length (elems refs) - k - n <= j < length (elems refs) - k)
               then set_Published b d else d) (elems refs))
      (spare refs)).
Proof.
  revert k refs. induction n as [|n IH]; intros k [e sp] Hk; simpl in *.
  - do 2 f_equal. apply list_eq. intros j. rewrite list_lookup_imap.
    destruct (e !! j); simpl; [|done]. by rewrite decide_False by lia.
  - unfold slice_get, slice_set, slice_len. simpl.
    repeat (case_cmp; simpl; try lia).
    replace (Z.to_nat (Z.of_nat (length e) - Z.of_nat (S k)))
      with (length e - S k) by lia.
    destruct (lookup_lt_is_Some_2 e (length e - S k)) as [d Hd]; [lia|].
    rewrite Hd. simpl.
    replace (Z.of_nat (S k) + 1)%Z with (Z.of_nat (S (S k))) by lia.
    rewrite IH by (simpl; rewrite length_insert; lia).
    simpl. do 2 f_equal. apply list_eq. intros j.
    rewrite !list_lookup_imap, length_insert.
    destruct (decide (j = length e - S k)) as [->|Hj].
    + rewrite list_lookup_insert_eq by lia. rewrite Hd. simpl.
      rewrite decide_False by lia. by rewrite decide_True by lia.
    + rewrite list_lookup_insert_ne by done.
      destruct (e !! j); simpl; [|done].
      repeat case_decide; try lia; done.
Qed.

Lemma publish_loop_mark_last b n refs :
  n <= length (elems refs) ->
  publish_loop b n 1 refs = Returns (Slice (spec.mark_last b n (elems refs)) (spare refs)).
Proof.
  intros Hn. change 1%Z with (Z.of_nat (S 0)).
  rewrite publish_loop_marks by lia.
  do 2 f_equal. unfold spec.mark_last. apply list_eq. intros j.
  rewrite !list_lookup_imap.
  destruct (elems refs !! j) eqn:Hj; simpl; [|done].
  apply lookup_lt_Some in Hj.
  repeat case_decide; try lia; done.
Qed.

Lemma spec_step_length ref state op :
  length (spec.step ref state op) <= S (length state).
Proof.
  unfold spec.step, spec.mark_last.
  repeat match goal with |- context [(?a =? ?b)%N] => destruct (a =? b)%N end;
    try destruct state;
    rewrite ?length_app, ?length_take, ?length_imap; simpl; lia.
Qed.

(** An applicable op does not panic, and the visible part of the slice moves
    as the specification's transition says. *)
Lemma replay_op_applicable ref refs op :
  spec.applicable (length (elems refs)) op = true ->
  (Z.of_nat (length (elems refs)) <= max_int64)%Z ->
  exists refs',
    replay_op ref refs op = Returns refs' /\
    elems refs' = spec.step ref (elems refs) op.
Proof.
  destruct refs as [e sp]. unfold spec.applicable, replay_op, spec.step. simpl.
  intros Happ Hlen.
  destruct (oplog.Model op =? versionModel)%N.
  - destruct (oplog.Type_ op =? oplog.OpTypeInit)%N.
    { eexists. split; [done|]. unfold slice_append. simpl. by destruct sp. }
    destruct (oplog.Type_ op =? oplog.OpTypeAmend)%N.
    { apply bool_decide_eq_true in Happ.
      unfold slice_set, slice_len. simpl.
      repeat (case_cmp; simpl; try lia).
      eexists. split; [done|]. simpl.
      destruct e as [|d e']; [simpl in Happ; lia|].
      replace (Z.to_nat (Z.of_nat (length (d :: e')) - 1)) with (length (d :: e') - 1) by lia.
      rewrite insert_take_drop by (simpl; lia).
      f_equal. f_equal. apply drop_ge. simpl. lia. }
    destruct (oplog.Type_ op =? oplog.OpTypeRemove)%N; [|by eexists].
    apply bool_decide_eq_true in Happ.
    unfold int_of_int64, slice_len. simpl.
    rewrite wrap64_small by (unfold in_int64, min_int64, max_int64 in *; lia).
    unfold slice_to, slice_cap. simpl.
    repeat (case_cmp; simpl; try lia).
    eexists. split; [done|]. simpl.
    rewrite take_app_le by lia. f_equal. lia.
  - destruct (oplog.Model op =? publicationModel)%N; [|by eexists].
    unfold int_of_int64.
    destruct (oplog.Type_ op =? oplog.OpTypeInit)%N; simpl in Happ.
    { apply bool_decide_eq_true in Happ.
      rewrite publish_loop_mark_last by (simpl; lia). by eexists. }
    destruct (oplog.Type_ op =? oplog.OpTypeRemove)%N; simpl in Happ; [|by eexists].
    apply bool_decide_eq_true in Happ.
    rewrite publish_loop_mark_last by (simpl; lia). by eexists.
Qed.

(** A replayable sequence of ops is replayed without a panic, and the
    visible part of the resulting slice is the specification's list. *)
Lemma replay_replayable ref ops refs :
  spec.replayable ref (elems refs) ops = true ->
  (Z.of_nat (length (elems refs) + length ops) <= max_int64)%Z ->
  exists refs',
    replay ref refs ops = Returns refs' /\
    elems refs' = spec.replay_from ref (elems refs) ops.
Proof.
  revert refs. induction ops as [|op ops IH]; intros refs Hok Hlen; simpl in *.
  - by eexists.
  - apply andb_true_iff in Hok as [Happ Hrest].
    destruct (replay_op_applicable ref refs op Happ) as (refs1 & Hrun & Helems); [lia|].
    rewrite Hrun. simpl.
    rewrite <- Helems in Hrest.
    destruct (IH refs1 Hrest) as (refs' & Hrun' & Helems').
    { pose proof (spec_step_length ref (elems refs) op). rewrite Helems. lia. }
    exists refs'. split; [done|]. by rewrite Helems', Helems.
Qed.

Lemma replay_app ref refs ops1 ops2 :
  replay ref refs (ops1 ++ ops2) =
    (refs' ← replay ref refs ops1; replay ref refs' ops2).
Proof.
  revert refs. induction ops1 as [|op ops1 IH]; intros refs; simpl; [done|].
  destruct (replay_op ref refs op); simpl; [apply IH|done].
Qed.

(** A version/remove op whose size exceeds the number of entries asks for
    a slice with a negative bound. *)
Lemma replay_op_remove_too_many ref refs op :
  spec.is_version_op oplog.OpTypeRemove op = true ->
  (slice_len refs < oplog.Size op <= max_int64)%Z ->
  replay_op ref refs op = Panics.
Proof.
  unfold spec.is_version_op, replay_op. intros [Hm Ht]%andb_true_iff Hsize.
  rewrite Hm. apply N.eqb_eq in Ht. rewrite Ht. simpl.
  unfold int_of_int64, slice_len in *.
  rewrite wrap64_small by (unfold in_int64, min_int64, max_int64 in *; lia).
  unfold slice_to. case_cmp; [lia|done].
Qed.

(** A version/amend op on an empty list writes at index -1. *)
Lemma replay_op_amend_empty ref refs op :
  spec.is_version_op oplog.OpTypeAmend op = true ->
  elems refs = [] ->
  replay_op ref refs op = Panics.
Proof.
  unfold spec.is_version_op, replay_op. intros [Hm Ht]%andb_true_iff Hnil.
  rewrite Hm. apply N.eqb_eq in Ht. rewrite Ht. simpl.
  unfold slice_set, slice_len. rewrite Hnil. done.
Qed.

(** Without a version/init op the slice stays as it was made: no entries
    and no capacity. *)
Lemma replay_op_stays_empty ref op refs' :
  spec.is_version_op oplog.OpTypeInit op = false ->
  replay_op ref slice_empty op = Returns refs' ->
  refs' = slice_empty.
Proof.
  unfold spec.is_version_op, replay_op.
  destruct (oplog.Model op =? versionModel)%N; simpl.
  - intros ->.
    destruct (oplog.Type_ op =? oplog.OpTypeAmend)%N; [done|].
    destruct (oplog.Type_ op =? oplog.OpTypeRemove)%N; [|congruence].
    unfold slice_to, slice_cap. simpl.
    repeat (case_cmp; simpl; try done).
    rewrite take_nil, drop_nil. by intros [= <-].
  - intros _.
    destruct (oplog.Model op =? publicationModel)%N; [|congruence].
    destruct (oplog.Type_ op =? oplog.OpTypeInit)%N;
      [|destruct (oplog.Type_ op =? oplog.OpTypeRemove)%N; [|congruence]];
      (destruct (Z.to_nat (int_of_int64 (oplog.Size op))); simpl; [congruence|done]).
Qed.

Lemma replay_stays_empty ref ops refs' :
  forallb (fun op => negb (spec.is_version_op oplog.OpTypeInit op)) ops = true ->
  replay ref slice_empty ops = Returns refs' ->
  refs' = slice_empty.
Proof.
  induction ops as [|op ops IH]; simpl.
  - congruence.
  - intros [Hop Hrest]%andb_true_iff. apply negb_true_iff in Hop.
    destruct (replay_op ref slice_empty op) as [refs1|] eqn:Hrun; simpl; [|done].
    apply replay_op_stays_empty in Hrun as ->; [|done]. by apply IH.
Qed.

Lemma replay_panics_at ref refs pre op post :
  (forall refs', replay ref refs pre = Returns refs' -> replay_op ref refs' op = Panics) ->
  replay ref refs (pre ++ op :: post) = Panics.
Proof.
  intros Hop. rewrite replay_app.
  destruct (replay ref refs pre) as [refs'|] eqn:Hpre; simpl; [|done].
  by rewrite (Hop refs' eq_refl).
Qed.
End ReplayFacts.

(** ** What [Versions] returns *)

Section VersionsFacts.
Import logbook.
Context `{Env}.

(** Claim C1, amended. For a branch log whose ops are each applicable when
    their turn comes (a version/amend finds a last entry, a version/remove
    has a size between zero and the number of entries, a publication op has
    a size of at most the number of entries), [Versions] derives its entries
    by replaying the ops in insertion order: version/init appends the entry
    built from the op, version/amend replaces the last entry, version/remove
    of size n removes the last n entries, publication/init and
    publication/remove of size n set and clear the published flag of the
    last n entries, and every other op changes nothing; what is returned is
    the page of that list. *)
Theorem Versions_replays_applicable_ops book ref offset limit p l :
  BranchRef book ref = Ok (p, l) ->
  spec.replayable ref [] (oplog.Ops l) = true ->
  (Z.of_nat (length (oplog.Ops l)) <= max_int64)%Z ->
  (0 <= offset)%Z -> (0 <= limit)%Z ->
  Versions book ref offset limit =
    Returns (Ok (spec.page (spec.replay ref (oplog.Ops l)) offset limit)).
Proof.
  intros Hbranch Hok Hlen Ho Hl. unfold Versions. rewrite Hbranch.
  destruct (replay_replayable ref (oplog.Ops l) slice_empty Hok)
    as (refs & Hrun & Helems); [simpl; lia|].
  rewrite Hrun. simpl.
  rewrite paginate_page by done. simpl.
  by rewrite Helems.
Qed.

(** Claim C3, amended. When the replay in [Versions] reaches a version/remove
    op whose size exceeds the number of entries at that point, or meets a
    version/amend op before any version/init op, [Versions] panics: the
    caller gets neither a list nor an error value. *)
Theorem Versions_corrupt_log_panics book ref offset limit p l pre op post :
  BranchRef book ref = Ok (p, l) ->
  oplog.Ops l = pre ++ op :: post ->
  (spec.is_version_op oplog.OpTypeRemove op = true /\
   (oplog.Size op <= max_int64)%Z /\
   forall refs, replay ref slice_empty pre = Returns refs ->
                (slice_len refs < oplog.Size op)%Z) \/
  (spec.is_version_op oplog.OpTypeAmend op = true /\
   forallb (fun o => negb (spec.is_version_op oplog.OpTypeInit o)) pre = true) ->
  Versions book ref offset limit = Panics.
Proof.
  intros Hbranch Hops Hbad. unfold Versions. rewrite Hbranch, Hops.
  rewrite replay_panics_at; [done|].
  intros refs Hpre. destruct Hbad as [(Hop & Hmax & Hsize)|(Hop & Hnone)].
  - apply replay_op_remove_too_many; [done|]. specialize (Hsize refs Hpre). lia.
  - apply replay_op_amend_empty; [done|].
    by rewrite (replay_stays_empty ref pre refs Hnone Hpre).
Qed.

(** Claim C4, amended. With a negative offset or a negative limit [Versions]
    never returns a list: it returns the error of the branch lookup when
    that fails, and otherwise panics on a slice bound out of range; no
    error value is made for the negative input. *)
Theorem Versions_negative_pagination book ref offset limit :
  (offset < 0 \/ limit < 0)%Z ->
  Versions book ref offset limit =
    match BranchRef book ref with
    | Err e => Returns (Err e)
    | Ok _ => Panics
    end.
Proof.
  intros Hneg. unfold Versions.
  destruct (BranchRef book ref) as [[p l]|e]; [|done].
  destruct (replay ref slice_empty (oplog.Ops l)) as [refs|]; simpl; [|done].
  by rewrite paginate_negative.
Qed.

(** Claim C5. For non-negative offset and limit, whatever list [Versions]
    returns has at most [limit] entries and is the replayed list newest first
    (the reverse of the replay order) without its first [offset] entries; and
    for every branch log whose replay yields a list [Versions] does return
    that page, which is empty when the offset is the length of the list (or
    more: the offset is clamped to the length). *)
Theorem Versions_page_newest_first book ref offset limit :
  (0 <= offset)%Z -> (0 <= limit)%Z ->
  (forall page,
      Versions book ref offset limit = Returns (Ok page) ->
      (Z.of_nat (length page) <= limit)%Z /\
      exists p l refs,
        BranchRef book ref = Ok (p, l) /\
        replay ref slice_empty (oplog.Ops l) = Returns refs /\
        page = take (Z.to_nat limit) (drop (Z.to_nat offset) (reverse (elems refs)))) /\
  (forall p l refs,
      BranchRef book ref = Ok (p, l) ->
      replay ref slice_empty (oplog.Ops l) = Returns refs ->
      Versions book ref offset limit =
        Returns (Ok (take (Z.to_nat limit)
                       (drop (Z.to_nat offset) (reverse (elems refs))))) /\
      ((slice_len refs <= offset)%Z ->
       Versions book ref offset limit = Returns (Ok []))).
Proof.
  intros Ho Hl. unfold Versions. split.
  - intros page.
    destruct (BranchRef book ref) as [[p l]|e]; [|done].
    destruct (replay ref slice_empty (oplog.Ops l)) as [refs|] eqn:Hrun; simpl; [|done].
    rewrite paginate_page by done. simpl. intros [= <-]. split.
    + unfold spec.page. rewrite length_take. lia.
    + by exists p, l, refs.
  - intros p l refs -> ->. simpl.
    rewrite paginate_page by done. simpl. split; [done|].
    unfold slice_len, spec.page. intros Hoff.
    rewrite drop_ge by (rewrite length_reverse; lia). by rewrite take_nil.
Qed.
End VersionsFacts.

(** ** [Versions] on the book of alice *)

Lemma Versions_replays_history :
  logbook.Versions (demo.book_with demo.history) demo.weather 0 10 =
    Returns (Ok [demo.info "Qa" true]).
Proof.
  apply (Versions_replays_applicable_ops (demo.book_with demo.history) demo.weather
           0 10 [0; 0; 0] (demo.branch_log demo.history)).
  - reflexivity.
  - reflexivity.
  - vm_compute. discriminate.
  - lia.
  - lia.
Defined.

(** Claim C1 as stated fails on a log with one saved version and a
    publication/init op of size 2: the words of the claim give the one entry,
    published, while [Versions] panics when the loop reaches index -1. *)
Lemma Versions_publish_two_of_one_panics :
  spec.page (spec.replay demo.weather
               (oplog.Ops (demo.branch_log demo.publish_two_of_one))) 0 10 =
    [demo.info "Qa" true] /\
  logbook.Versions (demo.book_with demo.publish_two_of_one) demo.weather 0 10 = Panics /\
  logbook.Versions (demo.book_with demo.publish_two_of_one) demo.weather 0 10 <>
    Returns (Ok (spec.page (spec.replay demo.weather
                              (oplog.Ops (demo.branch_log demo.publish_two_of_one))) 0 10)).
Proof. split; [reflexivity|]. split; [reflexivity|]. vm_compute. discriminate. Qed.

Lemma Versions_corrupt_log_panics_demo :
  logbook.Versions (demo.book_with demo.delete_of_none) demo.weather 0 10 = Panics /\
  logbook.Versions (demo.book_with demo.amend_of_none) demo.weather 0 10 = Panics.
Proof.
  split.
  - apply (Versions_corrupt_log_panics (demo.book_with demo.delete_of_none) demo.weather
             0 10 [0; 0; 0] (demo.branch_log demo.delete_of_none)
             [demo.op oplog.OpTypeInit logbook.branchModel "main" 0]
             (demo.version oplog.OpTypeRemove EmptyString 1) []).
    + reflexivity.
    + reflexivity.
    + left. split; [reflexivity|]. split; [vm_compute; discriminate|].
      intros refs Hrefs. vm_compute in Hrefs. injection Hrefs as <-. reflexivity.
  - apply (Versions_corrupt_log_panics (demo.book_with demo.amend_of_none) demo.weather
             0 10 [0; 0; 0] (demo.branch_log demo.amend_of_none)
             [demo.op oplog.OpTypeInit logbook.branchModel "main" 0]
             (demo.version oplog.OpTypeAmend "Qb" 0) []).
    + reflexivity.
    + reflexivity.
    + right. split; reflexivity.
Defined.

(** Claim C3 as stated fails on a log whose only version op removes one
    entry: [Versions] returns no error value, it panics. *)
Lemma Versions_delete_of_none_no_error :
  logbook.Versions (demo.book_with demo.delete_of_none) demo.weather 0 10 = Panics /\
  forall e, logbook.Versions (demo.book_with demo.delete_of_none) demo.weather 0 10 <>
            Returns (Err e).
Proof. split; [reflexivity|]. intros e. vm_compute. discriminate. Qed.

Lemma Versions_negative_offset_demo :
  logbook.Versions (demo.book_with demo.three_saves) demo.weather (-1) 10 = Panics.
Proof.
  apply (Versions_negative_pagination (demo.book_with demo.three_saves) demo.weather (-1) 10).
  left. lia.
Defined.

(** Claim C4 as stated fails for a negative limit on a log with three saved
    versions: [Versions] returns no error value, it panics. *)
Lemma Versions_negative_limit_no_error :
  logbook.Versions (demo.book_with demo.three_saves) demo.weather 0 (-1) = Panics /\
  forall e, logbook.Versions (demo.book_with demo.three_saves) demo.weather 0 (-1) <>
            Returns (Err e).
Proof. split; [reflexivity|]. intros e. vm_compute. discriminate. Qed.

Lemma Versions_page_three_saves :
  logbook.Versions (demo.book_with demo.three_saves) demo.weather 1 1 =
    Returns (Ok [demo.info "Qb" false]) /\
  logbook.Versions (demo.book_with demo.three_saves) demo.weather 3 5 = Returns (Ok []).
Proof.
  split.
  - destruct (Versions_page_newest_first (demo.book_with demo.three_saves) demo.weather 1 1)
      as [_ Hpage]; [lia|lia|].
    destruct (Hpage [0; 0; 0] (demo.branch_log demo.three_saves)
                (Slice (demo.info "Qa" false :: demo.info "Qb" false ::
                        demo.info "Qc" false :: nil)
                       (logbook.DatasetInfo_zero :: nil)))
      as [Hrun _]; [reflexivity|reflexivity|].
    rewrite Hrun. reflexivity.
  - destruct (Versions_page_newest_first (demo.book_with demo.three_saves) demo.weather 3 5)
      as [_ Hpage]; [lia|lia|].
    destruct (Hpage [0; 0; 0] (demo.branch_log demo.three_saves)
                (Slice (demo.info "Qa" false :: demo.info "Qb" false ::
                        demo.info "Qc" false :: nil)
                       (logbook.DatasetInfo_zero :: nil)))
      as [_ Hempty]; [reflexivity|reflexivity|].
    apply Hempty. vm_compute. discriminate.
Defined.

(** A version/remove op with a negative size re-slices beyond the length of
    the slice: the entry that an earlier remove cut off is in the list again. *)
Example Versions_negative_delete_restores :
  logbook.Versions
    (demo.book_with
       [demo.version oplog.OpTypeInit "Qa" 0; demo.version oplog.OpTypeInit "Qb" 0;
        demo.version oplog.OpTypeRemove EmptyString 1; demo.version oplog.OpTypeRemove EmptyString (-1)])
    demo.weather 0 10 =
    Returns (Ok [demo.info "Qb" false; demo.info "Qa" false]).
Proof. reflexivity. Qed.

(** ** Lookups in the tree of logs *)

Section TreeFacts.
Context `{oplog.Primitives}.
Implicit Types (ls : list oplog.Log) (l : oplog.Log) (p : oplog.ptr).

Lemma find_named_Some name k ls i l :
  oplog.find_named name k ls = Some (i, l) ->
  k <= i /\ ls !! (i - k) = Some l /\ oplog.Log_Name l = name.
Proof.
  revert k. induction ls as [|x ls IH]; intros k; simpl; [done|].
  destruct (String.eqb_spec (oplog.Log_Name x) name) as [Heq|Hne].
  - intros [= <- <-]. rewrite Nat.sub_diag. done.
  - intros (Hle & Hlook & Hname)%IH. split; [lia|]. split; [|done].
    replace (i - k) with (S (i - S k)) by lia. done.
Qed.

(** Replacing the found log by one of the same name leaves it the one found. *)
Lemma find_named_insert name k ls i l l' :
  oplog.find_named name k ls = Some (i, l) ->
  oplog.Log_Name l' = oplog.Log_Name l ->
  oplog.find_named name k (<[i - k := l']> ls) = Some (i, l').
Proof.
  revert k. induction ls as [|x ls IH]; intros k; simpl; [done|].
  destruct (String.eqb_spec (oplog.Log_Name x) name) as [Heq|Hne].
  - intros [= <- <-] Hname. rewrite Nat.sub_diag. simpl.
    rewrite Hname, Heq, String.eqb_refl. done.
  - intros Hfind Hname.
    pose proof (find_named_Some _ _ _ _ _ Hfind) as (Hle & _ & _).
    replace (i - k) with (S (i - S k)) by lia. simpl.
    destruct (String.eqb_spec (oplog.Log_Name x) name); [done|].
    by apply IH.
Qed.

(** A log appended to a list that has none of its name is the one found. *)
Lemma find_named_snoc name k ls l :
  oplog.find_named name k ls = None ->
  oplog.Log_Name l = name ->
  oplog.find_named name k (ls ++ [l]) = Some (k + length ls, l).
Proof.
  revert k. induction ls as [|x ls IH]; intros k; simpl.
  - intros _ ->. rewrite String.eqb_refl. do 2 f_equal. lia.
  - destruct (String.eqb (oplog.Log_Name x) name); [done|].
    intros Hnone Hname. rewrite IH by done. do 2 f_equal. lia.
Qed.

(** A successful descent along n names gives a pointer of length n to the
    log that it returns. *)
Lemma descend_Ok ls name rest p l :
  oplog.descend ls name rest = Ok (p, l) ->
  length p = S (length rest) /\ oplog.deref ls p = Some l /\
  exists i root, p !! 0 = Some i /\ oplog.find_named name 0 ls = Some (i, root).
Proof.
  revert ls name p. induction rest as [|n rest IH]; intros ls name p; simpl.
  - destruct (oplog.find_named name 0 ls) as [[i x]|] eqn:Hfind; [|done].
    intros [= <- <-].
    apply find_named_Some in Hfind as Hx. destruct Hx as (_ & Hlook & _).
    rewrite Nat.sub_0_r in Hlook. simpl. rewrite Hlook. eauto 10.
  - destruct (oplog.find_named name 0 ls) as [[i x]|] eqn:Hfind; [|done].
    destruct (oplog.descend (oplog.Logs x) n rest) as [[q y]|] eqn:Hrest; [|done].
    intros [= <- <-].
    apply IH in Hrest as (Hlen & Hderef & _).
    apply find_named_Some in Hfind as Hx. destruct Hx as (_ & Hlook & _).
    rewrite Nat.sub_0_r in Hlook. simpl. rewrite Hlook, Hlen.
    split; [done|]. split; [|eauto].
    by destruct q.
Qed.

Lemma find_id_None_head id l :
  oplog.find_id id l = None -> String.eqb (oplog.Log_ID l) id = false.
Proof.
  destruct l as [ops ls sig]. simpl.
  by destruct (String.eqb (oplog.Log_ID (oplog.MkLog ops ls sig)) id).
Qed.

(** A log whose id is found nowhere in the book is no duplicate of a
    top-level log. *)
Lemma find_id_in_None id k ls :
  oplog.find_id_in id k ls = None ->
  existsb (fun x => String.eqb (oplog.Log_ID x) id) ls = false.
Proof.
  revert k. induction ls as [|x ls IH]; intros k; simpl; [done|].
  destruct (oplog.find_id id x) as [[p y]|] eqn:Hx; [done|].
  intros Hrest. rewrite (find_id_None_head _ _ Hx). simpl. by apply (IH (S k)).
Qed.

(** What the search for an id finds has that id, and the pointer that comes
    with it leads to it. *)
Lemma find_id_Some id l p x :
  oplog.find_id id l = Some (p, x) ->
  oplog.Log_ID x = id /\
  match p with
  | [] => x = l
  | _ :: _ => oplog.deref (oplog.Logs l) p = Some x
  end.
Proof.
  revert p x. induction l as [ops ls sig IH] using oplog.Log_nested_ind.
  intros p x. simpl.
  destruct (String.eqb_spec (oplog.Log_ID (oplog.MkLog ops ls sig)) id) as [Hid|_].
  { by intros [= <- <-]. }
  assert (forall k,
    (fix children (i : nat) (cs : list oplog.Log) : option (oplog.ptr * oplog.Log) :=
       match cs with
       | [] => None
       | c :: cs' =>
           match oplog.find_id id c with
           | Some (p, x) => Some (i :: p, x)
           | None => children (S i) cs'
           end
       end) k ls = Some (p, x) ->
    oplog.Log_ID x = id /\
    exists j q, p = (k + j) :: q /\ oplog.deref ls (j :: q) = Some x) as Hchildren.
  { induction IH as [|c cs Hc _ IHcs]; intros k; simpl; [done|].
    destruct (oplog.find_id id c) as [[q y]|] eqn:Hfind.
    - intros [= <- <-]. destruct (Hc q y eq_refl) as [Hid Hq]. split; [done|].
      exists 0, q. split; [f_equal; lia|]. simpl.
      destruct q; [by subst|done].
    - intros (Hid & j & q & -> & Hq)%IHcs. split; [done|].
      exists (S j), q. split; [f_equal; lia|done]. }
  intros (Hid & j & q & -> & Hq)%Hchildren. split; [done|]. done.
Qed.

Lemma find_id_in_Some id k ls p x :
  oplog.find_id_in id k ls = Some (p, x) ->
  oplog.Log_ID x = id /\
  exists j q, p = (k + j) :: q /\ oplog.deref ls (j :: q) = Some x.
Proof.
  revert k. induction ls as [|l ls IH]; intros k; simpl; [done|].
  destruct (oplog.find_id id l) as [[q y]|] eqn:Hl.
  - intros [= <- <-]. apply find_id_Some in Hl as [Hid Hq]. split; [done|].
    exists 0, q. split; [f_equal; lia|]. simpl.
    destruct q; [by subst|done].
  - intros (Hid & j & q & -> & Hq)%IH. split; [done|].
    exists (S j), q. split; [f_equal; lia|done].
Qed.

(** The log that [Book.Log] returns has the id asked for and is the log of
    the book that the returned pointer leads to. *)
Lemma Book_Log_Ok bk id p x :
  oplog.Book_Log bk id = Ok (p, x) ->
  oplog.Log_ID x = id /\ oplog.deref (oplog.logs bk) p = Some x.
Proof.
  unfold oplog.Book_Log.
  destruct (oplog.find_id_in id 0 (oplog.logs bk)) as [[q y]|] eqn:Hfind; [|done].
  intros [= <- <-].
  by apply find_id_in_Some in Hfind as (Hid & j & q' & -> & Hq).
Qed.
End TreeFacts.

(** ** Writing to the book *)

Section WriteFacts.
Import logbook.
Context `{oplog.Primitives} `{Env}.
Implicit Types (book : Book) (ref : dsref.Ref) (ds : Dataset).

Lemma save_bk book : bk (save book).1 = bk book.
Proof.
  unfold save. destruct (oplog.Book_FlatbufferCipher (bk book)); [|done].
  by destruct (fs_Put _ _ _) as [fs' [loc err]].
Qed.

(** A save that returns no error has encrypted the book as it is and has
    put the bytes into the filesystem. *)
Lemma save_persists book book' :
  save book = (book', None) ->
  exists ciphertext,
    oplog.Book_FlatbufferCipher (bk book) = Ok ciphertext /\
    fs_Put (fs book) (fsLocation book) ciphertext = (fs book', (fsLocation book', None)) /\
    bk book' = bk book.
Proof.
  unfold save. destruct (oplog.Book_FlatbufferCipher (bk book)) as [ct|]; [|done].
  destruct (fs_Put _ _ _) as [fs' [loc err]] eqn:Hput.
  intros [= <- ->]. by exists ct.
Qed.

(** A successful pointer lookup leads three levels down, through a
    top-level log. *)
Lemma BranchRef_Ok book ref p l :
  BranchRef book ref = Ok (p, l) ->
  exists i j k root,
    p = [i; j; k] /\
    oplog.logs (bk book) !! i = Some root /\
    oplog.find_named (dsref.Username ref) 0 (oplog.logs (bk book)) = Some (i, root).
Proof.
  unfold BranchRef.
  destruct (String.eqb _ _); [done|]. destruct (String.eqb _ _); [done|].
  intros (Hlen & _ & i & root & Hi & Hfind)%descend_Ok.
  destruct p as [|i' [|j [|k [|]]]]; try done.
  injection Hi as ->.
  apply find_named_Some in Hfind as Hroot. destruct Hroot as (_ & Hroot & _).
  rewrite Nat.sub_0_r in Hroot. by exists i, j, k, root.
Qed.

(** The verbs that append one op to the branch return without an error
    only after a save of the book that holds the op. *)
Lemma write_branch_op_saves book ref op book' :
  write_branch_op (Some book) ref op = Returns (Some book', None) ->
  exists l x,
    BranchRef book ref = Ok (l, x) /\ save (append_at book l op) = (book', None).
Proof.
  unfold write_branch_op.
  destruct (BranchRef book ref) as [[l x]|]; [|done].
  destruct (save (append_at book l op)) as [b err] eqn:Hsave.
  intros [= <- ->]. eauto.
Qed.

Lemma WriteNameInit_saves book name book' :
  WriteNameInit (Some book) name = Returns (Some book', None) ->
  exists book1 branch,
    initName book name = Returns (book1, branch) /\ save book1 = (book', None).
Proof.
  unfold WriteNameInit.
  destruct (initName book name) as [[book1 branch]|]; simpl; [|done].
  destruct (save book1) as [b err] eqn:Hsave.
  intros [= <- ->]. eauto.
Qed.

Lemma WriteVersionSave_saves book ds book' :
  WriteVersionSave (Some book) ds = Returns (Some book', None) ->
  exists book1, save book1 = (book', None).
Proof.
  unfold WriteVersionSave.
  destruct (BranchRef book (refFromDataset ds)) as [[l x]|e].
  - destruct (appendVersionSave book l ds) as [book1|]; simpl; [|done].
    destruct (save book1) as [b err] eqn:Hsave. intros [= <- ->]. eauto.
  - destruct (error_eqb e oplog_ErrNotFound); [|done].
    destruct (initName _ _) as [[book1 branch]|]; simpl; [|done].
    destruct (appendVersionSave book1 branch ds) as [book2|]; simpl; [|done].
    destruct (save book2) as [b err] eqn:Hsave. intros [= <- ->]. eauto.
Qed.

Lemma WriteVersionAmend_saves book ds book' :
  WriteVersionAmend (Some book) ds = Returns (Some book', None) ->
  exists book1, save book1 = (book', None).
Proof.
  unfold WriteVersionAmend.
  destruct (BranchRef book (refFromDataset ds)) as [[l x]|e]; [|done].
  destruct (ds_Commit ds) as [c|]; [|done].
  destruct (save _) as [b err] eqn:Hsave. intros [= <- ->]. eauto.
Qed.

(** [WriteNameAmend] never reaches the filesystem, whatever it returns. *)
Lemma WriteNameAmend_never_saves book ref newName after err :
  WriteNameAmend (Some book) ref newName = Returns (Some after, err) ->
  fs after = fs book /\ fsLocation after = fsLocation book.
Proof.
  unfold WriteNameAmend.
  destruct (readDatasetLog book ref) as [[l x]|e]; by intros [= <- <-].
Qed.

(** Claim C10. Each of the eight write verbs, called on a nil book, returns
    [ErrNoLogbook]. *)
Theorem write_verbs_nil_book name ref newName ds revisions destinations number :
  WriteNameInit None name = Returns (None, Some ErrNoLogbook) /\
  WriteNameAmend None ref newName = Returns (None, Some ErrNoLogbook) /\
  WriteVersionSave None ds = Returns (None, Some ErrNoLogbook) /\
  WriteVersionAmend None ds = Returns (None, Some ErrNoLogbook) /\
  WriteVersionDelete None ref revisions = Returns (None, Some ErrNoLogbook) /\
  WritePublish None ref revisions destinations = Returns (None, Some ErrNoLogbook) /\
  WriteUnpublish None ref revisions destinations = Returns (None, Some ErrNoLogbook) /\
  WriteCronJobRan None number ref = Returns (None, Some ErrNoLogbook).
Proof. repeat split; reflexivity. Qed.

(** Claim C9. When the branch log of the ref exists, [ConstructDatasetLog]
    returns [ErrLogTooShort] and leaves the book, its location and the
    filesystem as they were. *)
Theorem ConstructDatasetLog_existing_log book ref history p l :
  BranchRef book ref = Ok (p, l) ->
  ConstructDatasetLog (Some book) ref history = Returns (Some book, Some ErrLogTooShort).
Proof. intros Hbranch. unfold ConstructDatasetLog. by rewrite Hbranch. Qed.

(** Claim C6. [MergeLog] verifies the log against the sender's public key
    before anything else: when that fails it returns the error of the
    verification and the book is untouched (nothing is appended, merged or
    put into the filesystem); when it succeeds, a log with an id unknown to
    the book is appended to the top-level logs, a log with a known id is
    merged into the log of that id, and the book is saved. *)
Theorem MergeLog_verifies_first book sender lg :
  (forall (receiver : option Book) e,
      oplog.Log_Verify lg (oplog.Author_AuthorPubKey sender) = Some e ->
      MergeLog receiver sender lg = Returns (receiver, Some e)) /\
  (oplog.Log_Verify lg (oplog.Author_AuthorPubKey sender) = None ->
   (oplog.Book_Log (bk book) (oplog.Log_ID lg) = Err oplog_ErrNotFound ->
    exists book' err,
      MergeLog (Some book) sender lg = Returns (Some book', err) /\
      (book', err) =
        save (with_bk book (oplog.with_logs (bk book) (oplog.logs (bk book) ++ [lg])))) /\
   (forall found x, oplog.Book_Log (bk book) (oplog.Log_ID lg) = Ok (found, x) ->
    oplog.Log_ID x = oplog.Log_ID lg /\
    oplog.deref (oplog.logs (bk book)) found = Some x /\
    exists book' err,
      MergeLog (Some book) sender lg = Returns (Some book', err) /\
      (book', err) =
        save (with_bk book
                (oplog.with_logs (bk book)
                   (oplog.update_at (fun y => oplog.Log_Merge y lg)
                      (oplog.logs (bk book)) found))))).
Proof.
  unfold MergeLog. split; [by intros receiver e ->|]. intros ->. split.
  - intros Hlog. rewrite Hlog. simpl.
    unfold oplog.Book_Log in Hlog.
    destruct (oplog.find_id_in _ _ _) eqn:Hfind; [done|].
    unfold oplog.Book_AppendLog. rewrite (find_id_in_None _ _ _ Hfind). simpl.
    destruct (save _) as [b err]. eauto.
  - intros found x Hfound. apply Book_Log_Ok in Hfound as Hx. destruct Hx as [Hid Hx].
    rewrite Hfound. split; [done|]. split; [done|].
    destruct (save _) as [b err]. eauto.
Qed.

(** Claim C7. [RemoveLog] returns without an error only when the id of the
    sender is the id of the top-level log that the branch of the ref hangs
    under; for a sender with another id it returns an error and the book is
    untouched. *)
Theorem RemoveLog_only_by_owner book sender ref p l root :
  BranchRef book ref = Ok (p, l) ->
  oplog.deref (oplog.logs (bk book)) (take 1 p) = Some root ->
  oplog.Log_Parent (take 1 p) = None /\
  (oplog.Log_ID root <> oplog.Author_AuthorID sender ->
   RemoveLog (Some book) sender ref =
     Returns (Some book, Some (Errorf "authors can only remove logs they own"))) /\
  (forall after, RemoveLog (Some book) sender ref = Returns (after, None) ->
                 oplog.Log_ID root = oplog.Author_AuthorID sender).
Proof.
  intros Hbranch Hroot. unfold RemoveLog. rewrite Hbranch.
  apply BranchRef_Ok in Hbranch as (i & j & k & root' & -> & Hi & _).
  simpl in *. rewrite Hi in *. injection Hroot as ->. simpl.
  split; [done|].
  destruct (String.eqb_spec (oplog.Log_ID root) (oplog.Author_AuthorID sender)) as [Heq|Hne];
    simpl.
  - split; [done|]. done.
  - split; [done|]. intros after. done.
Qed.

Lemma alter_lookup_insert {A} (f : A -> A) (l : list A) i a :
  l !! i = Some a -> alter f i l = <[i := f a]> l.
Proof.
  intros Ha. rewrite list_insert_alter. apply list_alter_ext; [|done].
  intros x Hx. congruence.
Qed.


(** [initName] when the author's log is the top-level log at index [i]:
    two timestamps are taken and the name log, holding the branch log,
    becomes the last child of the author's log. *)
Lemma initName_Returns book name i a :
  oplog.Book_Log (bk book) (oplog.authorID (bk book)) = Ok ([i], a) ->
  oplog.logs (bk book) !! i = Some a ->
  initName book name =
    Returns
      (with_bk (tick (tick book))
         (oplog.with_logs (bk book)
            (<[i := oplog.with_Logs a
                      (oplog.Logs a ++
                         [oplog.MkLog [nameInitOp book name]
                            [oplog.InitLog (branchInitOp (tick book))] None])]>
               (oplog.logs (bk book)))),
       [i; length (oplog.Logs a); 0]).
Proof.
  intros Hauthor Hi. unfold initName, authorLog. simpl. rewrite Hauthor. simpl.
  by rewrite (alter_lookup_insert _ _ _ _ Hi).
Qed.

(** Claim C8, amended. Let the log that goes by the ref's username be the
    top-level log of the book's author, and let it hold no dataset of the
    ref's name. Then the branch lookup reports not-found, and
    [WriteVersionSave] appends under the author's log a new name log that
    holds a branch log named main, applies the log append of the version
    init op to that branch (which adds the op when its timestamp is not
    older than that of the branch's init op), and saves; afterwards the
    branch lookup for the same ref finds the new branch. *)
Theorem WriteVersionSave_initializes_branch book ds c i a :
  ds_Peername ds <> EmptyString -> ds_Name ds <> EmptyString ->
  ds_Commit ds = Some c ->
  oplog.find_named (ds_Peername ds) 0 (oplog.logs (bk book)) = Some (i, a) ->
  oplog.Book_Log (bk book) (oplog.authorID (bk book)) = Ok ([i], a) ->
  oplog.find_named (ds_Name ds) 0 (oplog.Logs a) = None ->
  let branch :=
    (oplog.Log_Append (oplog.InitLog (branchInitOp (tick book))) (versionSaveOp ds c)).1 in
  let dsLog := oplog.MkLog [nameInitOp book (ds_Name ds)] [branch] None in
  let written :=
    with_bk (tick (tick book))
      (oplog.with_logs (bk book)
         (<[i := oplog.with_Logs a (oplog.Logs a ++ [dsLog])]> (oplog.logs (bk book)))) in
  BranchRef book (refFromDataset ds) = Err oplog_ErrNotFound /\
  WriteVersionSave (Some book) ds = Returns (Some (save written).1, (save written).2) /\
  BranchRef (save written).1 (refFromDataset ds) =
    Ok ([i; length (oplog.Logs a); 0], branch) /\
  oplog.Ops branch =
    branchInitOp (tick book) ::
      (if (NewTimestamp (S (clock book)) <=? Commit_Timestamp c)%Z
       then [versionSaveOp ds c] else []).
Proof.
  intros Huser Hname Hcommit Hfind Hauthor Hfresh branch dsLog written.
  apply find_named_Some in Hfind as Ha. destruct Ha as (_ & Hi & _).
  rewrite Nat.sub_0_r in Hi.
  assert (BranchRef book (refFromDataset ds) = Err oplog_ErrNotFound) as Hmiss.
  { unfold BranchRef. simpl.
    destruct (String.eqb_spec (ds_Peername ds) EmptyString); [done|].
    destruct (String.eqb_spec (ds_Name ds) EmptyString); [done|].
    simpl. by rewrite Hfind, Hfresh. }
  split; [done|]. split; [|split].
  - unfold WriteVersionSave. rewrite Hmiss. simpl.
    rewrite (initName_Returns _ _ _ _ Hauthor Hi). simpl.
    unfold appendVersionSave. rewrite Hcommit. simpl.
    assert (append_at
              (with_bk (tick (tick book))
                 (oplog.with_logs (bk book)
                    (<[i := oplog.with_Logs a
                              (oplog.Logs a ++
                                 [oplog.MkLog [nameInitOp book (ds_Name ds)]
                                    [oplog.InitLog (branchInitOp (tick book))] None])]>
                       (oplog.logs (bk book)))))
              [i; length (oplog.Logs a); 0] (versionSaveOp ds c) = written) as ->.
    { unfold append_at, written. simpl. do 2 f_equal.
      erewrite alter_lookup_insert
        by (apply list_lookup_insert_eq; by eapply lookup_lt_Some).
      rewrite list_insert_insert_eq. f_equal. unfold oplog.with_Logs. simpl.
      f_equal.
      replace (length (oplog.Logs a)) with (length (oplog.Logs a) + 0) at 1 by lia.
      by rewrite alter_app_r. }
    by destruct (save written).
  - unfold BranchRef. rewrite save_bk. simpl.
    destruct (String.eqb_spec (ds_Peername ds) EmptyString); [done|].
    destruct (String.eqb_spec (ds_Name ds) EmptyString); [done|].
    simpl.
    pose proof (find_named_insert _ _ _ _ _
                  (oplog.with_Logs a (oplog.Logs a ++ [dsLog])) Hfind eq_refl) as Hfind'.
    rewrite Nat.sub_0_r in Hfind'. rewrite Hfind'. simpl.
    rewrite (find_named_snoc (ds_Name ds) 0 (oplog.Logs a) dsLog Hfresh).
    2:{ unfold oplog.Log_Name. simpl.
        by destruct (String.eqb_spec (ds_Name ds) EmptyString). }
    simpl.
    assert (oplog.Log_Name branch = DefaultBranchName) as Hmain.
    { unfold branch, oplog.Log_Append. simpl.
      by destruct (Z.leb _ _). }
    by rewrite Hmain.
  - unfold branch, oplog.Log_Append. simpl. by destruct (Z.leb _ _).
Qed.
End WriteFacts.

(** ** The write verbs on the book of alice *)

(** Claim C2 fails on the code: [WriteNameAmend] on the dataset weather of
    alice's book returns without an error, the book in memory carries the new
    name (the dataset is found as climate and no longer as weather), and
    nothing has been put into the filesystem. *)
Theorem WriteNameAmend_returns_unsaved :
  exists after,
    logbook.WriteNameAmend (Some (demo.book_with [])) demo.weather "climate" =
      Returns (Some after, None) /\
    (exists l, logbook.readDatasetLog after demo.climate = Ok ([0; 0], l)) /\
    logbook.readDatasetLog after demo.weather = Err oplog_ErrNotFound /\
    logbook.fs after = [] /\
    logbook.fsLocation after = logbook.fsLocation (demo.book_with []).
Proof. eexists. split; [reflexivity|]. split; [eexists; reflexivity|]. done. Qed.

(** The sibling verb [WriteVersionDelete] on the same book does put the
    encrypted book into the filesystem before it returns. *)
Example WriteVersionDelete_saved :
  exists after,
    logbook.WriteVersionDelete (Some (demo.book_with demo.three_saves)) demo.weather 2 =
      Returns (Some after, None) /\
    logbook.fs after = [("/mem/logbook"%string, String.list_byte_of_string "alice")].
Proof. eexists. split; reflexivity. Qed.

Lemma MergeLog_unsigned_rejected :
  logbook.MergeLog (Some (demo.book_with [])) demo.bob (demo.bob_log None) =
    Returns (Some (demo.book_with []), Some (ExternalErr "invalid signature")) /\
  exists after,
    logbook.MergeLog (Some (demo.book_with [])) demo.bob
      (demo.bob_log (Some (oplog.Author_AuthorPubKey demo.bob))) =
      Returns (Some after, None) /\
    oplog.logs (logbook.bk after) =
      [demo.author_log []; demo.bob_log (Some (oplog.Author_AuthorPubKey demo.bob))].
Proof.
  split.
  - apply (proj1 (MergeLog_verifies_first (demo.book_with []) demo.bob (demo.bob_log None))
             (Some (demo.book_with []))).
    reflexivity.
  - destruct (MergeLog_verifies_first (demo.book_with []) demo.bob
                (demo.bob_log (Some (oplog.Author_AuthorPubKey demo.bob))))
      as [_ Hverified].
    destruct Hverified as [Hunknown _]; [reflexivity|].
    destruct Hunknown as (after & err & Hrun & Hsave); [reflexivity|].
    injection Hsave as -> ->. eexists. split; [exact Hrun|reflexivity].
Defined.

Lemma RemoveLog_by_bob_rejected :
  logbook.RemoveLog (Some (demo.book_with [])) demo.bob demo.weather =
    Returns (Some (demo.book_with []),
             Some (Errorf "authors can only remove logs they own")).
Proof.
  apply (RemoveLog_only_by_owner (demo.book_with []) demo.bob demo.weather
           [0; 0; 0] (demo.branch_log []) (demo.author_log [])).
  - reflexivity.
  - reflexivity.
  - vm_compute. discriminate.
Defined.

Lemma ConstructDatasetLog_weather_exists :
  logbook.ConstructDatasetLog (Some (demo.book_with [])) demo.weather
    [demo.first_save "alice" "weather"] =
    Returns (Some (demo.book_with []), Some ErrLogTooShort).
Proof.
  apply (ConstructDatasetLog_existing_log (demo.book_with []) demo.weather
           [demo.first_save "alice" "weather"] [0; 0; 0] (demo.branch_log [])).
  reflexivity.
Defined.

Lemma WriteVersionSave_population :
  exists after l,
    logbook.WriteVersionSave (Some (demo.book_with []))
      (demo.first_save "alice" "population") = Returns (Some after, None) /\
    logbook.BranchRef after
      (logbook.refFromDataset (demo.first_save "alice" "population")) = Ok ([0; 1; 0], l) /\
    length (oplog.Ops l) = 2.
Proof.
  destruct (WriteVersionSave_initializes_branch (demo.book_with [])
              (demo.first_save "alice" "population")
              {| logbook.Commit_Timestamp := 2000%Z; logbook.Commit_Title := "first" |}
              0 (demo.author_log []))
    as (_ & Hrun & Hfound & Hops);
    [done|done|reflexivity|reflexivity|reflexivity|reflexivity|].
  eexists _, _. split; [exact Hrun|]. split; [exact Hfound|].
  rewrite Hops. reflexivity.
Defined.

(** Claim C8 as stated fails for a dataset of another user: on alice's book a
    first save of bob's dataset weather finds no branch, puts the new name
    log under the log of alice and returns without an error, and the branch
    lookup for the same ref still reports not-found. *)
Lemma WriteVersionSave_other_user_not_found :
  logbook.BranchRef (demo.book_with [])
    (logbook.refFromDataset (demo.first_save "bob" "weather")) = Err oplog_ErrNotFound /\
  exists after,
    logbook.WriteVersionSave (Some (demo.book_with [])) (demo.first_save "bob" "weather") =
      Returns (Some after, None) /\
    length (oplog.Logs (demo.author_log [])) = 1 /\
    (exists a, oplog.logs (logbook.bk after) = [a] /\ length (oplog.Logs a) = 2) /\
    logbook.BranchRef after
      (logbook.refFromDataset (demo.first_save "bob" "weather")) = Err oplog_ErrNotFound.
Proof.
  split; [reflexivity|]. eexists. split; [reflexivity|]. split; [reflexivity|].
  split; [eexists; split; reflexivity|reflexivity].
Qed.


(** ** Log entries *)

Section LogEntriesFacts.
Import logbook.
Context `{Env}.

Lemma actionStrings_at_length m : length (actionStrings_at m) = 3.
Proof.
  unfold actionStrings_at, actionStrings. simpl.
  repeat (case_bool_decide; simpl; [reflexivity|]). reflexivity.
Qed.

(** An op gets an entry exactly when its type is init, amend or remove: any
    other type indexes the array of action strings out of range. *)
Lemma logEntryFromOp_known author op :
  spec.known_type op = true ->
  logEntryFromOp author op = Returns (spec.entry author op).
Proof.
  unfold spec.known_type, logEntryFromOp, array_at, spec.entry.
  intros [Hlo Hhi]%andb_true_iff. apply N.leb_le in Hlo, Hhi.
  pose proof (actionStrings_at_length (oplog.Model op)) as Hlen. rewrite Hlen.
  destruct (lookup_lt_is_Some_2 (actionStrings_at (oplog.Model op))
              (N.to_nat (oplog.Type_ op) - 1)) as [action Haction]; [lia|].
  repeat (case_cmp; simpl; try lia).
  replace (Z.to_nat (Z.of_N (oplog.Type_ op) - 1)) with (N.to_nat (oplog.Type_ op) - 1) by lia.
  rewrite Haction. simpl. do 2 f_equal.
  destruct (String.eqb_spec (oplog.Note op) EmptyString) as [Hnote|]; simpl; [|done].
  destruct (String.eqb_spec (oplog.Name op) EmptyString) as [Hname|]; simpl; [|done].
  congruence.
Qed.

Lemma logEntryFromOp_unknown author op :
  spec.known_type op = false -> logEntryFromOp author op = Panics.
Proof.
  unfold spec.known_type, logEntryFromOp, array_at.
  intros Hbad. rewrite actionStrings_at_length.
  apply andb_false_iff in Hbad as [Hbad|Hbad]; apply N.leb_gt in Hbad;
    repeat (case_cmp; simpl; try lia); done.
Qed.

Lemma loop_window_skip limit offset res op ops :
  (0 < offset)%Z ->
  spec.loop_window limit offset res (op :: ops) = spec.loop_window limit (offset - 1) res ops.
Proof.
  intros Hpos. unfold spec.loop_window.
  replace (Z.to_nat offset) with (S (Z.to_nat (offset - 1))) by lia. done.
Qed.

Lemma loop_window_take limit offset res op ops entry :
  (offset <= 0)%Z ->
  (limit <= 0 \/ Z.of_nat (length res) < limit)%Z ->
  spec.loop_window limit offset res (op :: ops) =
    op :: (if (Z.of_nat (length (res ++ [entry])) =? limit)%Z then []
           else spec.loop_window limit offset (res ++ [entry]) ops).
Proof.
  intros Hoff Hres. unfold spec.loop_window. rewrite length_app. simpl.
  replace (Z.to_nat offset) with 0 by lia. rewrite !drop_0.
  destruct (Z.ltb_spec 0 limit).
  - replace (Z.to_nat limit - length res) with
      (S (Z.to_nat limit - (length res + 1))) by lia.
    simpl. f_equal.
    destruct (Z.eqb_spec (Z.of_nat (length res + 1)) limit); [|done].
    replace (Z.to_nat limit - (length res + 1)) with 0 by lia. apply take_0.
  - destruct (Z.eqb_spec (Z.of_nat (length res + 1)) limit); [lia|done].
Qed.

(** The loop gives the ops of its window their entries, in order, after
    [res]; an op of unknown type in the window makes it panic. *)
Lemma logEntries_loop_window author limit ops offset res :
  (limit <= 0 \/ Z.of_nat (length res) < limit)%Z ->
  logEntries_loop author limit offset res ops =
    if forallb spec.known_type (spec.loop_window limit offset res ops)
    then Returns (res ++ map (spec.entry author) (spec.loop_window limit offset res ops))
    else Panics.
Proof.
  revert offset res. induction ops as [|op ops IH]; intros offset res Hres; simpl.
  - unfold spec.loop_window. rewrite drop_nil, take_nil.
    destruct (0 <? limit)%Z; simpl; by rewrite app_nil_r.
  - destruct (Z.gtb_spec offset 0) as [Hpos|Hnonpos].
    + rewrite loop_window_skip by done. by apply IH.
    + rewrite (loop_window_take _ _ _ _ _ (spec.entry author op)) by done. simpl.
      destruct (spec.known_type op) eqn:Hop; simpl.
      * rewrite logEntryFromOp_known by done. simpl.
        destruct (Z.eqb_spec (Z.of_nat (length (res ++ [spec.entry author op]))) limit)
          as [Hfull|Hmore]; simpl; [done|].
        rewrite IH by (rewrite length_app in *; simpl in *; lia).
        destruct (forallb _ _); [|done]. by rewrite <- app_assoc.
      * by rewrite logEntryFromOp_unknown.
Qed.

(** [LogEntries] returns the entries of the ops after the first [offset]
    ones, at most [limit] of them when [limit] is positive; a negative offset
    counts as zero and a limit of zero or less as no limit. It panics exactly
    when one of these ops has a type other than init, amend and remove; the
    ops that are skipped or cut off are not looked at. *)
Theorem LogEntries_window `{oplog.Primitives} book ref offset limit p l :
  BranchRef book ref = Ok (p, l) ->
  LogEntries book ref offset limit =
    if forallb spec.known_type (spec.window offset limit (oplog.Ops l))
    then Returns (Ok (map (spec.entry (dsref.Username ref))
                        (spec.window offset limit (oplog.Ops l))))
    else Panics.
Proof.
  intros Hbranch. unfold LogEntries. rewrite Hbranch.
  rewrite logEntries_loop_window by (simpl; lia).
  unfold spec.loop_window, spec.window. simpl. rewrite Nat.sub_0_r.
  by destruct (forallb _ _).
Qed.

(** What [LogEntries] returns has no more than [limit] entries when [limit]
    is positive, and no entries when [offset] is the number of ops or more. *)
Theorem LogEntries_bounds `{oplog.Primitives} book ref offset limit entries :
  LogEntries book ref offset limit = Returns (Ok entries) ->
  ((0 < limit)%Z -> (Z.of_nat (length entries) <= limit)%Z) /\
  (forall p l, BranchRef book ref = Ok (p, l) ->
               (Z.of_nat (length (oplog.Ops l)) <= offset)%Z -> entries = []).
Proof.
  unfold LogEntries.
  destruct (BranchRef book ref) as [[p l]|e] eqn:Hbranch; [|done].
  rewrite logEntries_loop_window by (simpl; lia).
  unfold spec.loop_window. simpl. rewrite Nat.sub_0_r.
  destruct (forallb _ _); [|done]. simpl. intros [= <-]. split.
  - intros Hpos. destruct (Z.ltb_spec 0 limit); [|lia].
    rewrite length_map, length_take. lia.
  - intros p' l' [= <- <-] Hoff.
    rewrite drop_ge by lia. rewrite take_nil. by destruct (0 <? limit)%Z.
Qed.
End LogEntriesFacts.


(** ** The human-oriented representation *)

Section RawFacts.
Import logbook.

Lemma modelString_inj m1 m2 :
  (m1 <= cronJobModel)%N -> (m2 <= cronJobModel)%N ->
  modelString m1 = modelString m2 -> m1 = m2.
Proof.
  unfold cronJobModel. intros H1 H2.
  assert (m1 = 0 \/ m1 = 1 \/ m1 = 2 \/ m1 = 3 \/ m1 = 4 \/ m1 = 5 \/ m1 = 6)%N
    as Hm1 by lia.
  assert (m2 = 0 \/ m2 = 1 \/ m2 = 2 \/ m2 = 3 \/ m2 = 4 \/ m2 = 5 \/ m2 = 6)%N
    as Hm2 by lia.
  destruct Hm1 as [->|[->|[->|[->|[->|[->| ->]]]]]];
    destruct Hm2 as [->|[->|[->|[->|[->|[->| ->]]]]]];
    vm_compute; intros; congruence.
Qed.

Lemma opTypeString_inj t1 t2 :
  (1 <= t1 <= 3)%N -> (1 <= t2 <= 3)%N ->
  opTypeString t1 = opTypeString t2 -> t1 = t2.
Proof.
  intros H1 H2.
  assert (t1 = 1 \/ t1 = 2 \/ t1 = 3)%N as Ht1 by lia.
  assert (t2 = 1 \/ t2 = 2 \/ t2 = 3)%N as Ht2 by lia.
  destruct Ht1 as [->|[->| ->]]; destruct Ht2 as [->|[->| ->]];
    vm_compute; intros; congruence.
Qed.

(** A model or a type that the package does not know is shown as the empty
    string, and only those are. *)
Lemma modelString_empty m : modelString m = EmptyString <-> (cronJobModel < m)%N.
Proof.
  unfold modelString, authorModel, nameModel, branchModel, versionModel,
    publicationModel, aclModel, cronJobModel.
  repeat match goal with
         | |- context [(m =? ?k)%N] =>
             destruct (N.eqb_spec m k) as [->|?]; [split; [discriminate|lia]|]
         end.
  split; [lia|done].
Qed.

Lemma opTypeString_empty t : opTypeString t = EmptyString <-> ~ (1 <= t <= 3)%N.
Proof.
  unfold opTypeString, oplog.OpTypeInit, oplog.OpTypeAmend, oplog.OpTypeRemove.
  repeat match goal with
         | |- context [(t =? ?k)%N] =>
             destruct (N.eqb_spec t k) as [->|?]; [split; [discriminate|lia]|]
         end.
  split; [lia|done].
Qed.

(** The representation of an op of known model and type tells the op: two
    such ops with the same representation are the same op. *)
Lemma newOp_inj op1 op2 :
  spec.known_op op1 = true -> spec.known_op op2 = true ->
  newOp op1 = newOp op2 -> op1 = op2.
Proof.
  unfold spec.known_op, spec.known_type.
  intros [Hm1 [Hlo1 Hhi1]%andb_true_iff]%andb_true_iff
         [Hm2 [Hlo2 Hhi2]%andb_true_iff]%andb_true_iff.
  apply N.leb_le in Hm1, Hm2, Hlo1, Hhi1, Hlo2, Hhi2.
  destruct op1, op2. unfold newOp. simpl in *. intros [= Htype Hmodel -> -> -> -> -> -> -> ->].
  apply opTypeString_inj in Htype as ->; [|lia|lia].
  by apply modelString_inj in Hmodel as ->.
Qed.

(** The representation of an op has an empty type or an empty model exactly
    when the op is not of known model and type: these are the ops that the
    representation does not tell apart. *)
Theorem newOp_unknown_blank op :
  Op_Type (newOp op) = EmptyString \/ Op_Model (newOp op) = EmptyString <->
  spec.known_op op = false.
Proof.
  unfold newOp. cbn [Op_Type Op_Model].
  rewrite opTypeString_empty, modelString_empty.
  unfold spec.known_op, spec.known_type.
  rewrite !andb_false_iff, !N.leb_gt. unfold cronJobModel. lia.
Qed.

Lemma map_newOp_inj ops1 ops2 :
  forallb spec.known_op ops1 = true -> forallb spec.known_op ops2 = true ->
  map newOp ops1 = map newOp ops2 -> ops1 = ops2.
Proof.
  revert ops2. induction ops1 as [|o1 ops1 IH]; intros [|o2 ops2];
    cbn [forallb map]; try done.
  intros [H1 Hr1]%andb_true_iff [H2 Hr2]%andb_true_iff Heq.
  assert (newOp o1 = newOp o2 /\ map newOp ops1 = map newOp ops2) as [Ho Hrest]
    by (split; congruence).
  f_equal; [by apply newOp_inj|by apply IH].
Qed.

Lemma newLog_unfold l :
  newLog l = MkLog (map newOp (oplog.Ops l)) (map newLog (oplog.Logs l)).
Proof.
  by destruct l as [ops ls sig].
Qed.

Lemma all_ops_unfold P l :
  spec.all_ops P l = forallb P (oplog.Ops l) && forallb (spec.all_ops P) (oplog.Logs l).
Proof.
  by destruct l as [ops ls sig].
Qed.

Lemma unsigned_unfold l :
  spec.unsigned l = oplog.MkLog (oplog.Ops l) (map spec.unsigned (oplog.Logs l)) None.
Proof.
  by destruct l as [ops ls sig].
Qed.

(** The representation of a log whose ops are all of known model and type
    tells the log up to the signatures, which it leaves out. *)
Lemma newLog_inj l1 l2 :
  spec.all_ops spec.known_op l1 = true -> spec.all_ops spec.known_op l2 = true ->
  newLog l1 = newLog l2 -> spec.unsigned l1 = spec.unsigned l2.
Proof.
  revert l2. induction l1 as [ops1 ls1 sig1 IH] using oplog.Log_nested_ind.
  intros [ops2 ls2 sig2]. rewrite !all_ops_unfold, !newLog_unfold, !unsigned_unfold.
  cbn [oplog.Ops oplog.Logs].
  intros [Hops1 Hls1]%andb_true_iff [Hops2 Hls2]%andb_true_iff [= Hops Hls].
  apply map_newOp_inj in Hops as ->; [|done|done]. f_equal.
  clear Hops1 Hops2. revert ls2 Hls1 Hls2 Hls.
  induction IH as [|c1 cs1 Hc1 _ IHcs]; intros [|c2 cs2]; cbn [forallb map]; try done.
  intros [H1 Hr1]%andb_true_iff [H2 Hr2]%andb_true_iff Heq.
  assert (newLog c1 = newLog c2 /\ map newLog cs1 = map newLog cs2) as [Hc Hcs]
    by (split; congruence).
  f_equal; [by apply Hc1|by apply IHcs].
Qed.

(** For books whose ops are all of known model and type, equal raw logs mean
    equal logs up to signatures. *)
Theorem RawLogs_inj `{Env} (book1 book2 : Book) :
  forallb (spec.all_ops spec.known_op) (oplog.logs (bk book1)) = true ->
  forallb (spec.all_ops spec.known_op) (oplog.logs (bk book2)) = true ->
  RawLogs book1 = RawLogs book2 ->
  map spec.unsigned (oplog.logs (bk book1)) = map spec.unsigned (oplog.logs (bk book2)).
Proof.
  unfold RawLogs. generalize (oplog.logs (bk book1)) (oplog.logs (bk book2)).
  intros ls1. induction ls1 as [|c1 cs1 IH]; intros [|c2 cs2]; cbn [forallb map]; try done.
  intros [H1 Hr1]%andb_true_iff [H2 Hr2]%andb_true_iff Heq.
  assert (newLog c1 = newLog c2 /\ map newLog cs1 = map newLog cs2) as [Hc Hcs]
    by (split; congruence).
  f_equal; [by apply newLog_inj|by apply IH].
Qed.
End RawFacts.


(** ** Looking up users, datasets and branches *)

Section LookupFacts.
Import logbook.
Context `{oplog.Primitives} `{Env}.
Implicit Types (book : Book) (ref : dsref.Ref).

(** A log that has a name other than the empty string has an op. *)
Lemma Log_Name_nonempty l :
  oplog.Log_Name l <> EmptyString -> oplog.Ops l <> [].
Proof. unfold oplog.Log_Name. by destruct (oplog.Ops l). Qed.

(** The branch of a ref is the first child named main of the ref's dataset
    log. *)
Lemma BranchRef_DatasetRef book ref :
  BranchRef book ref =
    match DatasetRef book ref with
    | Err e => Err e
    | Ok (q, ds) =>
        match oplog.find_named DefaultBranchName 0 (oplog.Logs ds) with
        | Some (k, l) => Ok (q ++ [k], l)
        | None => Err oplog_ErrNotFound
        end
    end.
Proof.
  unfold BranchRef, DatasetRef.
  destruct (String.eqb _ _); [done|]. destruct (String.eqb _ _); [done|].
  simpl.
  destruct (oplog.find_named (dsref.Username ref) 0 _) as [[i a]|]; [|done].
  destruct (oplog.find_named (dsref.Name ref) 0 _) as [[j ds]|]; [|done].
  by destruct (oplog.find_named DefaultBranchName 0 _) as [[k l]|].
Qed.

(** Whenever the branch of a ref is found, [UserDatasetRef] succeeds too: it
    returns the ops of the user's log with the ref's dataset log as the only
    child, and the branch is a child of that dataset log. *)
Theorem BranchRef_UserDatasetRef book ref p l :
  BranchRef book ref = Ok (p, l) ->
  exists user ds k,
    DatasetRef book ref = Ok (take 2 p, ds) /\
    oplog.deref (oplog.logs (bk book)) (take 1 p) = Some user /\
    UserDatasetRef book ref = Ok (oplog.MkLog (oplog.Ops user) [ds] None) /\
    oplog.Logs ds !! k = Some l /\ oplog.Log_Name l = DefaultBranchName.
Proof.
  unfold BranchRef, DatasetRef, UserDatasetRef.
  destruct (String.eqb _ _); [done|]. destruct (String.eqb _ _); [done|].
  simpl.
  destruct (oplog.find_named (dsref.Username ref) 0 _) as [[i a]|] eqn:Ha; [|done].
  destruct (oplog.find_named (dsref.Name ref) 0 _) as [[j ds]|] eqn:Hds; [|done].
  destruct (oplog.find_named DefaultBranchName 0 _) as [[k b]|] eqn:Hb; [|done].
  intros [= <- <-].
  apply find_named_Some in Ha as (_ & Ha & _), Hb as (_ & Hb & Hmain).
  rewrite Nat.sub_0_r in Ha, Hb.
  exists a, ds, k. simpl. by rewrite Ha.
Qed.

(** The alias of what [UserDatasetRef] returns is the username and the name
    of the ref it was asked for, when the user's log is an author log; the
    lookup never hands out a log on which [DsrefAliasForLog] panics. *)
Theorem DsrefAliasForLog_UserDatasetRef book ref lg :
  UserDatasetRef book ref = Ok lg ->
  exists m,
    oplog.Log_Model lg = Returns m /\
    DsrefAliasForLog (Some lg) =
      Returns
        (if (m =? authorModel)%N
         then Ok {| dsref.Username := dsref.Username ref;
                    dsref.ProfileID := EmptyString;
                    dsref.Name := dsref.Name ref;
                    dsref.Path := EmptyString |}
         else Err (Errorf "logbook: log isn't rooted as an author")).
Proof.
  unfold UserDatasetRef.
  destruct (String.eqb_spec (dsref.Username ref) EmptyString) as [|Huser]; [done|].
  destruct (String.eqb_spec (dsref.Name ref) EmptyString) as [|Hname]; [done|].
  simpl.
  destruct (oplog.find_named (dsref.Username ref) 0 _) as [[i a]|] eqn:Ha; [|done].
  destruct (oplog.find_named (dsref.Name ref) 0 _) as [[j ds]|] eqn:Hds; [|done].
  intros [= <-].
  apply find_named_Some in Ha as (_ & _ & Ha), Hds as (_ & _ & Hds).
  assert (oplog.Ops a <> []) as Hops by (apply Log_Name_nonempty; congruence).
  unfold DsrefAliasForLog, oplog.Log_Model. simpl.
  destruct (oplog.Ops a) as [|o ops] eqn:Hopsa; [done|].
  exists (oplog.Model o). split; [done|]. simpl.
  destruct (oplog.Model o =? authorModel)%N; simpl; [|done].
  do 3 f_equal; [|done].
  by rewrite <- Ha; unfold oplog.Log_Name; simpl; rewrite Hopsa.
Qed.
End LookupFacts.

(** ** Reading what was written *)

Section WriteReadFacts.
Import logbook.
Context `{oplog.Primitives} `{Env}.
Implicit Types (book : Book) (ref : dsref.Ref) (l : oplog.Log) (op : oplog.Op).

(** An op without a name leaves the name of the log it is appended to. *)
Lemma Log_Append_name l op :
  oplog.Name op = EmptyString ->
  oplog.Log_Name (oplog.Log_Append l op).1 = oplog.Log_Name l.
Proof.
  intros Hname. unfold oplog.Log_Append.
  destruct (last (oplog.Ops l)) as [tl|] eqn:Hlast.
  - destruct (Z.leb _ _); [|done]. unfold oplog.Log_Name. simpl.
    destruct (oplog.Ops l) as [|o ops]; [done|]. simpl.
    rewrite foldl_app. simpl. rewrite Hname. simpl. by rewrite andb_false_r.
  - apply last_None in Hlast. unfold oplog.Log_Name. simpl. rewrite Hlast. simpl.
    rewrite Hname. simpl. by rewrite andb_false_r.
Qed.

(** An op that the log accepts is its new last op. *)
Lemma Log_Append_accepted l op :
  (oplog.Log_Append l op).2 = None ->
  oplog.Ops (oplog.Log_Append l op).1 = oplog.Ops l ++ [op].
Proof.
  unfold oplog.Log_Append. destruct (last (oplog.Ops l)); [|done].
  by destruct (Z.leb _ _).
Qed.

(** An op that the log turns down leaves the log as it is. *)
Lemma Log_Append_rejected l op e :
  (oplog.Log_Append l op).2 = Some e -> (oplog.Log_Append l op).1 = l.
Proof.
  unfold oplog.Log_Append. destruct (last (oplog.Ops l)); [|done].
  by destruct (Z.leb _ _).
Qed.

(** A write through the pointer that a descent returned, which keeps the name
    of the log, is seen by the same descent at the same place. *)
Lemma descend_update_at f ls name rest p l :
  oplog.descend ls name rest = Ok (p, l) ->
  oplog.Log_Name (f l) = oplog.Log_Name l ->
  oplog.descend (oplog.update_at f ls p) name rest = Ok (p, f l).
Proof.
  revert ls name p. induction rest as [|n rest IH]; intros ls name p; simpl.
  - destruct (oplog.find_named name 0 ls) as [[i x]|] eqn:Hfind; [|done].
    intros [= <- <-] Hname. simpl.
    apply find_named_Some in Hfind as Hx. destruct Hx as (_ & Hx & _).
    rewrite Nat.sub_0_r in Hx. rewrite (alter_lookup_insert _ _ _ _ Hx).
    pose proof (find_named_insert _ _ _ _ _ (f x) Hfind Hname) as Hfind'.
    rewrite Nat.sub_0_r in Hfind'. by rewrite Hfind'.
  - destruct (oplog.find_named name 0 ls) as [[i x]|] eqn:Hfind; [|done].
    destruct (oplog.descend (oplog.Logs x) n rest) as [[q y]|] eqn:Hrest; [|done].
    intros [= <- <-] Hname.
    apply find_named_Some in Hfind as Hx. destruct Hx as (_ & Hx & _).
    rewrite Nat.sub_0_r in Hx.
    pose proof (descend_Ok _ _ _ _ _ Hrest) as (Hlen & _).
    destruct q as [|j q]; [done|].
    change (oplog.update_at f ls (i :: j :: q))
      with (alter (fun l0 => oplog.with_Logs l0 (oplog.update_at f (oplog.Logs l0) (j :: q)))
              i ls).
    rewrite (alter_lookup_insert _ _ _ _ Hx).
    pose proof (find_named_insert _ _ _ _ _
                  (oplog.with_Logs x (oplog.update_at f (oplog.Logs x) (j :: q)))
                  Hfind eq_refl) as Hfind'.
    rewrite Nat.sub_0_r in Hfind'.
    rewrite Hfind'. cbn [oplog.with_Logs oplog.Logs].
    by rewrite (IH _ _ _ Hrest Hname).
Qed.

(** After an op without a name went through the pointer of the branch, the
    lookup of the branch finds the log with the op appended, at the same
    place. *)
Lemma BranchRef_append_at book ref p l op :
  BranchRef book ref = Ok (p, l) ->
  oplog.Name op = EmptyString ->
  BranchRef (save (append_at book p op)).1 ref = Ok (p, (oplog.Log_Append l op).1).
Proof.
  unfold BranchRef. rewrite save_bk.
  destruct (String.eqb _ _); [done|]. destruct (String.eqb _ _); [done|].
  unfold oplog.Book_HeadRef, append_at.
  cbn [bk with_bk oplog.logs oplog.with_logs]. intros Hfound Hname.
  apply (descend_update_at (fun x => (oplog.Log_Append x op).1)); [done|].
  by apply Log_Append_name.
Qed.

(** What [Versions] returns after such a write, when the log accepted the op:
    the replay goes one step further. *)
Lemma Versions_append_at book ref p l op refs offset limit :
  BranchRef book ref = Ok (p, l) ->
  oplog.Name op = EmptyString ->
  (oplog.Log_Append l op).2 = None ->
  replay ref slice_empty (oplog.Ops l) = Returns refs ->
  Versions (save (append_at book p op)).1 ref offset limit =
    (refs' ← replay_op ref refs op;
     page ← paginate refs' offset limit;
     Returns (Ok page)).
Proof.
  intros Hbranch Hname Haccepted Hrun. unfold Versions.
  rewrite (BranchRef_append_at _ _ _ _ _ Hbranch Hname).
  rewrite Log_Append_accepted by done.
  rewrite replay_app, Hrun. simpl.
  by destruct (replay_op ref refs op).
Qed.

Lemma write_branch_op_Returns book ref p l op :
  BranchRef book ref = Ok (p, l) ->
  write_branch_op (Some book) ref op =
    Returns (Some (save (append_at book p op)).1, (save (append_at book p op)).2).
Proof.
  intros Hbranch. unfold write_branch_op. rewrite Hbranch.
  by destruct (save _).
Qed.

Lemma slice_append_elems {A} (zero : A) extra (s : slice A) x :
  elems (slice_append zero extra s x) = elems s ++ [x].
Proof. unfold slice_append. by destruct (spare s). Qed.

(** The flags of the last [n] entries, seen from the newest entry. *)
Lemma reverse_mark_last b n (state : list DatasetInfo) :
  n <= length state ->
  reverse (spec.mark_last b n state) =
    (set_Published b <$> take n (reverse state)) ++ drop n (reverse state).
Proof.
  intros Hn. unfold spec.mark_last. apply list_eq. intros j.
  destruct (decide (j < length state)) as [Hj|Hj].
  - rewrite reverse_lookup by (rewrite length_imap; lia).
    rewrite length_imap, list_lookup_imap.
    destruct (decide (j < n)) as [Hjn|Hjn].
    + rewrite lookup_app_l by (rewrite length_fmap, length_take, length_reverse; lia).
      rewrite list_lookup_fmap, lookup_take_lt by done.
      rewrite reverse_lookup by done.
      destruct (state !! (length state - S j)); simpl; [|done].
      by rewrite decide_True by lia.
    + rewrite lookup_app_r by (rewrite length_fmap, length_take, length_reverse; lia).
      rewrite length_fmap, length_take, length_reverse, lookup_drop.
      rewrite reverse_lookup by lia.
      replace (length state - S (n + (j - n `min` length state))) with (length state - S j)
        by lia.
      destruct (state !! (length state - S j)); simpl; [|done].
      by rewrite decide_False by lia.
  - rewrite !lookup_ge_None_2; [done| |].
    + rewrite length_app, length_fmap, length_take, length_drop, length_reverse. lia.
    + rewrite length_reverse, length_imap. lia.
Qed.

(** After [WriteVersionSave] on a ref that has its branch, when the log took
    the op, the newest version that [Versions] returns for the dataset's ref
    is the one saved: it carries that ref with the path of the dataset, the
    time and the title of the commit and the length of the structure as size,
    and is not published; the versions that were there follow. This holds
    whether or not the save of the book returned an error. *)
Theorem WriteVersionSave_Versions book ds c p l refs offset limit :
  BranchRef book (refFromDataset ds) = Ok (p, l) ->
  ds_Commit ds = Some c ->
  (oplog.Log_Append l (versionSaveOp ds c)).2 = None ->
  replay (refFromDataset ds) slice_empty (oplog.Ops l) = Returns refs ->
  (0 <= offset)%Z -> (0 <= limit)%Z ->
  exists after err,
    WriteVersionSave (Some book) ds = Returns (Some after, err) /\
    Versions after (refFromDataset ds) offset limit =
      Returns (Ok (take (Z.to_nat limit) (drop (Z.to_nat offset)
        ({| Ref := refFromDataset ds;
            Published := false;
            Timestamp := Commit_Timestamp c;
            CommitTitle := Commit_Title c;
            Size := match ds_Structure ds with
                    | Some st => Structure_Length st
                    | None => 0%Z
                    end |} :: reverse (elems refs))))).
Proof.
  intros Hbranch Hcommit Haccepted Hrun Ho Hl.
  exists (save (append_at book p (versionSaveOp ds c))).1,
         (save (append_at book p (versionSaveOp ds c))).2.
  split.
  - unfold WriteVersionSave, appendVersionSave. rewrite Hbranch, Hcommit. simpl.
    by destruct (save _).
  - rewrite (Versions_append_at _ _ _ _ _ refs) by done.
    unfold replay_op. simpl. rewrite paginate_page by done. simpl.
    unfold spec.page. by rewrite slice_append_elems, reverse_snoc.
Qed.

(** After [WriteVersionAmend] on a ref that has its branch, when the log took
    the op: with no version there, [Versions] for the ref panics from then
    on; otherwise the newest version is replaced by one with the path of
    the dataset, the time and the title of the commit and size zero, not
    published, and the older versions follow. This holds whether or not the
    save of the book returned an error. *)
Theorem WriteVersionAmend_Versions book ds c p l refs offset limit :
  BranchRef book (refFromDataset ds) = Ok (p, l) ->
  ds_Commit ds = Some c ->
  (oplog.Log_Append l (versionAmendOp ds c)).2 = None ->
  replay (refFromDataset ds) slice_empty (oplog.Ops l) = Returns refs ->
  (0 <= offset)%Z -> (0 <= limit)%Z ->
  exists after err,
    WriteVersionAmend (Some book) ds = Returns (Some after, err) /\
    Versions after (refFromDataset ds) offset limit =
      match reverse (elems refs) with
      | [] => Panics
      | _ :: older =>
          Returns (Ok (take (Z.to_nat limit) (drop (Z.to_nat offset)
            ({| Ref := refFromDataset ds;
                Published := false;
                Timestamp := Commit_Timestamp c;
                CommitTitle := Commit_Title c;
                Size := 0%Z |} :: older))))
      end.
Proof.
  intros Hbranch Hcommit Haccepted Hrun Ho Hl.
  exists (save (append_at book p (versionAmendOp ds c))).1,
         (save (append_at book p (versionAmendOp ds c))).2.
  split.
  - unfold WriteVersionAmend. rewrite Hbranch, Hcommit.
    by destruct (save _).
  - rewrite (Versions_append_at _ _ _ _ _ refs) by done.
    unfold replay_op. simpl. destruct refs as [e sp].
    unfold slice_set, slice_len. simpl.
    destruct e as [|y e _] using rev_ind; simpl; [done|].
    rewrite reverse_snoc, length_app. simpl.
    repeat (case_cmp; simpl; try lia).
    rewrite paginate_page by done. simpl. unfold spec.page. simpl.
    replace (Z.to_nat (Z.of_nat (length e + 1) - 1)) with (length e + 0) by lia.
    rewrite insert_app_r. simpl. by rewrite reverse_snoc.
Qed.

(** After [WriteVersionDelete] of [n] revisions, with [n] between zero and the
    number of versions, when the log took the op, [Versions] no longer returns
    the [n] newest versions; the older ones are returned as before. *)
Theorem WriteVersionDelete_Versions book ref n p l refs offset limit :
  BranchRef book ref = Ok (p, l) ->
  (oplog.Log_Append l (countOp oplog.OpTypeRemove versionModel n [])).2 = None ->
  replay ref slice_empty (oplog.Ops l) = Returns refs ->
  (0 <= n <= slice_len refs)%Z -> (slice_len refs <= max_int64)%Z ->
  (0 <= offset)%Z -> (0 <= limit)%Z ->
  exists after err,
    WriteVersionDelete (Some book) ref n = Returns (Some after, err) /\
    Versions after ref offset limit =
      Returns (Ok (take (Z.to_nat limit)
                     (drop (Z.to_nat offset) (drop (Z.to_nat n) (reverse (elems refs)))))).
Proof.
  intros Hbranch Haccepted Hrun Hn Hmax Ho Hl.
  eexists _, _. split; [by apply (write_branch_op_Returns _ _ p l)|].
  rewrite (Versions_append_at _ _ _ _ _ refs) by done.
  destruct (replay_op_applicable ref refs (countOp oplog.OpTypeRemove versionModel n []))
    as (refs' & -> & Helems).
  { unfold spec.applicable. simpl. apply bool_decide_eq_true.
    unfold slice_len in Hn. lia. }
  { done. }
  simpl. rewrite paginate_page by done. simpl.
  unfold spec.page. rewrite Helems. unfold spec.step. simpl.
  rewrite reverse_take. unfold slice_len in Hn.
  by replace (length (elems refs) - (length (elems refs) - Z.to_nat n))
    with (Z.to_nat n) by lia.
Qed.


(** After [WritePublish] of [n] revisions ([published] true) or
    [WriteUnpublish] of [n] revisions ([published] false), with [n] at most
    the number of versions, when the log took the op, the [n] newest versions
    that [Versions] returns carry that flag and the older ones are as they
    were; nothing changes for [n] of zero or less. *)
Theorem WritePublish_Versions book ref (published : bool) n destinations p l refs offset limit :
  let type := if published then oplog.OpTypeInit else oplog.OpTypeRemove in
  BranchRef book ref = Ok (p, l) ->
  (oplog.Log_Append l (countOp type publicationModel n destinations)).2 = None ->
  replay ref slice_empty (oplog.Ops l) = Returns refs ->
  (n <= slice_len refs)%Z ->
  (0 <= offset)%Z -> (0 <= limit)%Z ->
  exists after err,
    (if published then WritePublish (Some book) ref n destinations
     else WriteUnpublish (Some book) ref n destinations) = Returns (Some after, err) /\
    Versions after ref offset limit =
      Returns (Ok (take (Z.to_nat limit) (drop (Z.to_nat offset)
        ((set_Published published <$> take (Z.to_nat n) (reverse (elems refs))) ++
         drop (Z.to_nat n) (reverse (elems refs)))))).
Proof.
  intros type Hbranch Haccepted Hrun Hn Ho Hl.
  exists (save (append_at book p (countOp type publicationModel n destinations))).1,
         (save (append_at book p (countOp type publicationModel n destinations))).2.
  split.
  { unfold type. destruct published; by apply (write_branch_op_Returns _ _ p l). }
  rewrite (Versions_append_at _ _ _ _ _ refs) by done.
  assert (replay_op ref refs (countOp type publicationModel n destinations) =
          Returns (Slice (spec.mark_last published (Z.to_nat n) (elems refs)) (spare refs)))
    as ->.
  { unfold replay_op, int_of_int64, type. unfold slice_len in Hn.
    destruct published; simpl; apply publish_loop_mark_last; lia. }
  simpl. rewrite paginate_page by done. simpl.
  unfold spec.page. rewrite reverse_mark_last; [done|]. unfold slice_len in Hn. lia.
Qed.

(** [WriteCronJobRan] never changes what [Versions] returns for the ref,
    whatever the book, the number and the outcome of the save. *)
Theorem WriteCronJobRan_Versions book number ref :
  exists after err,
    WriteCronJobRan (Some book) number ref = Returns (Some after, err) /\
    forall offset limit, Versions after ref offset limit = Versions book ref offset limit.
Proof.
  unfold WriteCronJobRan, write_branch_op.
  destruct (BranchRef book ref) as [[p l]|e] eqn:Hbranch; [|by eexists _, _].
  set (op := countOp oplog.OpTypeInit cronJobModel number []).
  exists (save (append_at book p op)).1, (save (append_at book p op)).2.
  split; [by destruct (save _)|]. intros offset limit.
  unfold Versions. rewrite (BranchRef_append_at _ _ _ _ op Hbranch eq_refl), Hbranch.
  destruct (oplog.Log_Append l op).2 as [e|] eqn:Hres.
  - by rewrite (Log_Append_rejected _ _ _ Hres).
  - rewrite Log_Append_accepted by done. rewrite replay_app.
    destruct (replay ref slice_empty (oplog.Ops l)) as [refs|]; simpl; [|done].
    by destruct (paginate refs offset limit).
Qed.
End WriteReadFacts.


(** ** New datasets *)

Section NewDatasetFacts.
Import logbook.
Context `{oplog.Primitives} `{Env}.
Implicit Types (book : Book) (ref : dsref.Ref) (l : oplog.Log) (op : oplog.Op).

(** The branch that [initName] makes is what the lookup of the ref finds
    afterwards, when the log that goes by the ref's username is the book's
    author log and has no dataset of the ref's name. *)
Lemma initName_BranchRef book ref i a :
  dsref.Username ref <> EmptyString -> dsref.Name ref <> EmptyString ->
  oplog.find_named (dsref.Username ref) 0 (oplog.logs (bk book)) = Some (i, a) ->
  oplog.Book_Log (bk book) (oplog.authorID (bk book)) = Ok ([i], a) ->
  oplog.find_named (dsref.Name ref) 0 (oplog.Logs a) = None ->
  exists book1,
    initName book (dsref.Name ref) = Returns (book1, [i; length (oplog.Logs a); 0]) /\
    BranchRef book1 ref =
      Ok ([i; length (oplog.Logs a); 0], oplog.InitLog (branchInitOp (tick book))).
Proof.
  intros Huser Hname Hfind Hauthor Hfresh.
  apply find_named_Some in Hfind as Ha. destruct Ha as (_ & Hi & _).
  rewrite Nat.sub_0_r in Hi.
  eexists. split; [by apply initName_Returns|].
  unfold BranchRef.
  destruct (String.eqb_spec (dsref.Username ref) EmptyString); [done|].
  destruct (String.eqb_spec (dsref.Name ref) EmptyString); [done|].
  cbn [bk with_bk oplog.logs oplog.with_logs oplog.Book_HeadRef oplog.descend].
  set (dsLog := oplog.MkLog _ _ _).
  pose proof (find_named_insert _ _ _ _ _
                (oplog.with_Logs a (oplog.Logs a ++ [dsLog])) Hfind eq_refl) as Hfind'.
  rewrite Nat.sub_0_r in Hfind'. rewrite Hfind'.
  cbn [oplog.with_Logs oplog.Logs].
  rewrite (find_named_snoc (dsref.Name ref) 0 (oplog.Logs a) dsLog Hfresh).
  2:{ unfold oplog.Log_Name. simpl.
      by destruct (String.eqb_spec (dsref.Name ref) EmptyString). }
  done.
Qed.





(** After [WriteNameInit] the new dataset has its branch and no versions:
    [Versions] for it returns the empty list. *)
Theorem WriteNameInit_Versions book ref i a offset limit :
  dsref.Username ref <> EmptyString -> dsref.Name ref <> EmptyString ->
  oplog.find_named (dsref.Username ref) 0 (oplog.logs (bk book)) = Some (i, a) ->
  oplog.Book_Log (bk book) (oplog.authorID (bk book)) = Ok ([i], a) ->
  oplog.find_named (dsref.Name ref) 0 (oplog.Logs a) = None ->
  (0 <= offset)%Z -> (0 <= limit)%Z ->
  exists after err,
    WriteNameInit (Some book) (dsref.Name ref) = Returns (Some after, err) /\
    Versions after ref offset limit = Returns (Ok []).
Proof.
  intros Huser Hname Hfind Hauthor Hfresh Ho Hl.
  destruct (initName_BranchRef book ref i a) as (book1 & Hinit & Hbranch); try done.
  exists (save book1).1, (save book1).2. split.
  - unfold WriteNameInit. rewrite Hinit. simpl. by destruct (save book1).
  - unfold Versions, BranchRef in *. rewrite save_bk, Hbranch. simpl.
    rewrite paginate_page by done. simpl.
    unfold spec.page. cbn [elems slice_empty reverse rev_append].
    by rewrite drop_nil, take_nil.
Qed.

End NewDatasetFacts.

(** ** Removing and renaming datasets *)

Section RemoveRenameFacts.
Import logbook.
Context `{oplog.Primitives} `{Env}.
Implicit Types (book : Book) (ref : dsref.Ref) (l : oplog.Log) (ls : list oplog.Log).

(** Without the log that was found, and with no later log of its name, the
    name is found no more. *)
Lemma find_named_delete name k ls i x :
  oplog.find_named name k ls = Some (i, x) ->
  oplog.find_named name (S i) (drop (S (i - k)) ls) = None ->
  oplog.find_named name k (delete (i - k) ls) = None.
Proof.
  revert k. induction ls as [|y ls IH]; intros k; simpl; [done|].
  destruct (String.eqb_spec (oplog.Log_Name y) name) as [Heq|Hne].
  - intros [= <- <-]. rewrite Nat.sub_diag. simpl. rewrite drop_0.
    clear. generalize (S k) as m. intros m. revert m k.
    induction ls as [|z ls IH]; intros m k; simpl; [done|].
    destruct (String.eqb (oplog.Log_Name z) name); [done|]. apply IH.
  - intros Hfind Hlater.
    pose proof (find_named_Some _ _ _ _ _ Hfind) as (Hle & _ & _).
    replace (i - k) with (S (i - S k)) in * by lia. simpl in *.
    destruct (String.eqb_spec (oplog.Log_Name y) name); [done|].
    by apply IH.
Qed.

(** The index from which the search counts does not matter for the log that
    is found. *)
Lemma find_named_shift name k k' ls :
  snd <$> oplog.find_named name k ls = snd <$> oplog.find_named name k' ls.
Proof.
  revert k k'. induction ls as [|y ls IH]; intros k k'; simpl; [done|].
  destruct (String.eqb (oplog.Log_Name y) name); [done|]. apply IH.
Qed.

(** A log of another name can be taken out of the list without a change to
    the log that is found. *)
Lemma find_named_delete_ne name k ls j x :
  ls !! j = Some x -> oplog.Log_Name x <> name ->
  snd <$> oplog.find_named name k (delete j ls) = snd <$> oplog.find_named name k ls.
Proof.
  revert k j. induction ls as [|y ls IH]; intros k [|j]; simpl; try done.
  - intros [= ->] Hne.
    destruct (String.eqb_spec (oplog.Log_Name x) name); [done|].
    apply find_named_shift.
  - intros Hj Hne.
    destruct (String.eqb (oplog.Log_Name y) name); [done|]. by apply IH.
Qed.

(** A log can be replaced by one of the same name without a change to the
    log that is found under another name. *)
Lemma find_named_insert_ne name k ls j x x' :
  ls !! j = Some x -> oplog.Log_Name x <> name -> oplog.Log_Name x' = oplog.Log_Name x ->
  oplog.find_named name k (<[j := x']> ls) = oplog.find_named name k ls.
Proof.
  revert k j. induction ls as [|y ls IH]; intros k [|j]; simpl; try done.
  - intros [= ->] Hne ->.
    by destruct (String.eqb_spec (oplog.Log_Name x) name).
  - intros Hj Hne Hname.
    destruct (String.eqb (oplog.Log_Name y) name); [done|]. by apply IH.
Qed.

(** A log that gets a name which no log of the list has is found under that
    name. *)
Lemma find_named_renamed name k ls j x x' :
  oplog.find_named name k ls = None ->
  ls !! j = Some x -> oplog.Log_Name x' = name ->
  oplog.find_named name k (<[j := x']> ls) = Some (k + j, x').
Proof.
  revert k j. induction ls as [|y ls IH]; intros k [|j]; simpl; try done.
  - intros _ _ ->. rewrite String.eqb_refl. do 2 f_equal. lia.
  - destruct (String.eqb (oplog.Log_Name y) name); [done|].
    intros Hnone Hj Hname. rewrite (IH (S k) j) by done. do 2 f_equal. lia.
Qed.

(** [Versions] looks at the book only through the branch log that the lookup
    returns. *)
Lemma Versions_same_branch book book' ref ref' offset limit :
  dsref.Username ref' = dsref.Username ref ->
  dsref.ProfileID ref' = dsref.ProfileID ref ->
  dsref.Name ref' = dsref.Name ref ->
  match BranchRef book' ref', BranchRef book ref with
  | Ok (_, l'), Ok (_, l) => l' = l
  | Err e', Err e => e' = e
  | _, _ => False
  end ->
  Versions book' ref' offset limit = Versions book ref offset limit.
Proof.
  intros Hu Hp Hn. unfold Versions.
  destruct (BranchRef book' ref') as [[p' l']|e'], (BranchRef book ref) as [[p l]|e];
    try done; [|by intros ->].
  intros ->.
  assert (forall refs ops, replay ref' refs ops = replay ref refs ops) as Hreplay.
  { intros refs ops. revert refs. induction ops as [|op ops IH]; intros refs; simpl; [done|].
    assert (replay_op ref' refs op = replay_op ref refs op) as ->.
    { unfold replay_op, infoFromOp. by rewrite Hu, Hp, Hn. }
    destruct (replay_op ref refs op); simpl; [apply IH|done]. }
  by rewrite Hreplay.
Qed.

(** [RemoveLog] by the owner: the sender whose id is the id of the user's
    log cuts the dataset log of the ref, with all its branches, out of the
    user's log. When no later dataset of the user has the same name, the
    branch of the ref is not found afterwards; and [Versions] returns for
    every other dataset of the book what it returned before. This holds
    whether or not the save of the book returned an error. *)
Theorem RemoveLog_by_owner book sender ref i j k l a :
  BranchRef book ref = Ok ([i; j; k], l) ->
  oplog.logs (bk book) !! i = Some a ->
  oplog.Log_ID a = oplog.Author_AuthorID sender ->
  oplog.find_named (dsref.Name ref) (S j) (drop (S j) (oplog.Logs a)) = None ->
  exists after err,
    RemoveLog (Some book) sender ref = Returns (Some after, err) /\
    oplog.logs (bk after) =
      <[i := oplog.with_Logs a (delete j (oplog.Logs a))]> (oplog.logs (bk book)) /\
    BranchRef after ref = Err oplog_ErrNotFound /\
    forall ref' offset limit,
      dsref.Username ref' <> dsref.Username ref \/ dsref.Name ref' <> dsref.Name ref ->
      Versions after ref' offset limit = Versions book ref' offset limit.
Proof.
  intros Hbranch Hi Hid Hlater.
  pose proof Hbranch as Hfound. unfold BranchRef in Hfound.
  destruct (String.eqb_spec (dsref.Username ref) EmptyString) as [|Huser]; [done|].
  destruct (String.eqb_spec (dsref.Name ref) EmptyString) as [|Hname]; [done|].
  cbn [oplog.Book_HeadRef oplog.descend] in Hfound.
  destruct (oplog.find_named (dsref.Username ref) 0 _) as [[i0 a0]|] eqn:Hu; [|done].
  destruct (oplog.find_named (dsref.Name ref) 0 _) as [[j0 ds]|] eqn:Hd; [|done].
  destruct (oplog.find_named DefaultBranchName 0 _) as [[k0 b]|] eqn:Hb; [|done].
  injection Hfound as -> -> -> ->.
  pose proof (find_named_Some _ _ _ _ _ Hu) as (_ & Ha & Hua).
  rewrite Nat.sub_0_r, Hi in Ha. injection Ha as <-.
  pose proof (find_named_Some _ _ _ _ _ Hd) as (_ & Hds & Hnds).
  rewrite Nat.sub_0_r in Hds.
  set (a' := oplog.with_Logs a (delete j (oplog.Logs a))).
  set (bk' := oplog.with_logs (bk book) (<[i := a']> (oplog.logs (bk book)))).
  assert (oplog.Book_RemoveLog (bk book) (dsRefToLogPath ref) = bk') as Hremoved.
  { unfold oplog.Book_RemoveLog, dsRefToLogPath.
    cbn [oplog.Book_HeadRef oplog.descend]. rewrite Hu, Hd.
    cbn [oplog.remove_at]. by rewrite (alter_lookup_insert _ _ _ _ Hi). }
  exists (save (with_bk book bk')).1, (save (with_bk book bk')).2.
  split; [|split; [|split]].
  - unfold RemoveLog. rewrite Hbranch. simpl. rewrite Hi. simpl.
    rewrite Hid, String.eqb_refl. simpl. rewrite Hremoved. by destruct (save _).
  - by rewrite save_bk.
  - unfold BranchRef. rewrite save_bk.
    destruct (String.eqb_spec (dsref.Username ref) EmptyString); [done|].
    destruct (String.eqb_spec (dsref.Name ref) EmptyString); [done|].
    cbn [oplog.Book_HeadRef oplog.descend bk with_bk bk' oplog.logs oplog.with_logs].
    pose proof (find_named_insert _ _ _ _ _ a' Hu eq_refl) as Hu'.
    rewrite Nat.sub_0_r in Hu'. rewrite Hu'.
    cbn [a' oplog.with_Logs oplog.Logs].
    pose proof (find_named_delete _ _ _ _ _ Hd) as Hgone.
    rewrite Nat.sub_0_r in Hgone. by rewrite Hgone.
  - intros ref' offset limit Hother.
    apply Versions_same_branch; try done.
    unfold BranchRef. rewrite save_bk.
    destruct (String.eqb (dsref.Username ref') EmptyString); [done|].
    destruct (String.eqb (dsref.Name ref') EmptyString); [done|].
    cbn [oplog.Book_HeadRef oplog.descend bk with_bk bk' oplog.logs oplog.with_logs].
    destruct (decide (dsref.Username ref' = dsref.Username ref)) as [Hsame|Hdiff].
    + destruct Hother as [?|Hother]; [done|].
      rewrite Hsame.
      pose proof (find_named_insert _ _ _ _ _ a' Hu eq_refl) as Hu'.
      rewrite Nat.sub_0_r in Hu'. rewrite Hu', Hu.
      cbn [a' oplog.with_Logs oplog.Logs].
      pose proof (find_named_delete_ne (dsref.Name ref') 0 _ _ _ Hds) as Hkept.
      rewrite Hnds in Hkept. specialize (Hkept (not_eq_sym Hother)).
      destruct (oplog.find_named (dsref.Name ref') 0 (delete j (oplog.Logs a)))
        as [[j1 x1]|], (oplog.find_named (dsref.Name ref') 0 (oplog.Logs a))
        as [[j2 x2]|]; simpl in Hkept; try done.
      injection Hkept as ->.
      by destruct (oplog.find_named DefaultBranchName 0 (oplog.Logs x2)) as [[k1 b1]|].
    + rewrite (find_named_insert_ne _ _ _ _ a a' Hi); [| congruence |done].
      destruct (oplog.find_named (dsref.Username ref') 0 _) as [[i1 a1]|]; [|done].
      destruct (oplog.find_named (dsref.Name ref') 0 _) as [[j1 x1]|]; [|done].
      by destruct (oplog.find_named DefaultBranchName 0 (oplog.Logs x1)) as [[k1 b1]|].
Qed.

(** A log that gets another name, with no later log of its old name, is
    found under the old name no more. *)
Lemma find_named_renamed_away name k ls i x x' :
  oplog.find_named name k ls = Some (i, x) ->
  oplog.Log_Name x' <> name ->
  oplog.find_named name (S i) (drop (S (i - k)) ls) = None ->
  oplog.find_named name k (<[i - k := x']> ls) = None.
Proof.
  revert k. induction ls as [|y ls IH]; intros k; simpl; [done|].
  destruct (String.eqb_spec (oplog.Log_Name y) name) as [Heq|Hne].
  - intros [= <- <-] Hx'. rewrite Nat.sub_diag. simpl. rewrite drop_0.
    destruct (String.eqb_spec (oplog.Log_Name x') name); [done|].
    by intros Hlater.
  - intros Hfind Hx' Hlater.
    pose proof (find_named_Some _ _ _ _ _ Hfind) as (Hle & _ & _).
    replace (i - k) with (S (i - S k)) in * by lia. simpl in *.
    destruct (String.eqb_spec (oplog.Log_Name y) name); [done|].
    by apply IH.
Qed.

(** [WriteNameAmend] renames: when the dataset log of the ref is a name log
    that takes the amend op, and no dataset of the user has the new name, the
    branch and the log entries that were found under the old name are found
    under the new name, unchanged; and the old name is not found any more
    when no later dataset of the user has it. *)
Theorem WriteNameAmend_renames book ref newName i a j ds :
  dsref.Username ref <> EmptyString -> dsref.Name ref <> EmptyString ->
  newName <> EmptyString ->
  oplog.find_named (dsref.Username ref) 0 (oplog.logs (bk book)) = Some (i, a) ->
  oplog.find_named (dsref.Name ref) 0 (oplog.Logs a) = Some (j, ds) ->
  oplog.Log_Model ds = Returns nameModel ->
  (oplog.Log_Append ds (nameAmendOp book newName)).2 = None ->
  oplog.find_named newName 0 (oplog.Logs a) = None ->
  let renamed := {| dsref.Username := dsref.Username ref;
                    dsref.ProfileID := dsref.ProfileID ref;
                    dsref.Name := newName;
                    dsref.Path := dsref.Path ref |} in
  exists after,
    WriteNameAmend (Some book) ref newName = Returns (Some after, None) /\
    BranchRef after renamed = BranchRef book ref /\
    (forall offset limit,
        LogEntries after renamed offset limit = LogEntries book ref offset limit) /\
    (oplog.find_named (dsref.Name ref) (S j) (drop (S j) (oplog.Logs a)) = None ->
     BranchRef after ref = Err oplog_ErrNotFound).
Proof.
  intros Huser Hname Hnew Hu Hd Hmodel Haccepted Hfresh renamed.
  pose proof (find_named_Some _ _ _ _ _ Hu) as (_ & Hi & _).
  pose proof (find_named_Some _ _ _ _ _ Hd) as (_ & Hj & Hnds).
  rewrite Nat.sub_0_r in Hi, Hj.
  set (op := nameAmendOp book newName) in *.
  set (ds' := (oplog.Log_Append ds op).1).
  set (a' := oplog.with_Logs a (<[j := ds']> (oplog.Logs a))).
  assert (oplog.Log_Name ds' = newName) as Hrenamed.
  { unfold ds', oplog.Log_Name. rewrite Log_Append_accepted by done.
    unfold oplog.Log_Model in Hmodel.
    destruct (oplog.Ops ds) as [|o0 ops]; [done|]. injection Hmodel as Hmodel.
    simpl. rewrite foldl_app. simpl. rewrite Hmodel. simpl.
    by destruct (String.eqb_spec newName EmptyString). }
  assert (oplog.Logs ds' = oplog.Logs ds) as Hlogs.
  { unfold ds', oplog.Log_Append. destruct (last (oplog.Ops ds)); [|done].
    by destruct (Z.leb _ _). }
  assert (readDatasetLog book ref = Ok ([i; j], ds)) as Hread.
  { unfold readDatasetLog.
    destruct (String.eqb_spec (dsref.Username ref) EmptyString); [done|].
    destruct (String.eqb_spec (dsref.Name ref) EmptyString); [done|].
    cbn [oplog.Book_HeadRef oplog.descend]. by rewrite Hu, Hd. }
  assert (oplog.logs (bk (append_at (tick book) [i; j] op)) =
          <[i := a']> (oplog.logs (bk book))) as Hwritten.
  { unfold append_at. cbn [bk with_bk tick oplog.logs oplog.with_logs oplog.update_at].
    rewrite (alter_lookup_insert _ _ _ _ Hi). unfold a'. do 2 f_equal.
    by rewrite (alter_lookup_insert _ _ _ _ Hj). }
  pose proof (find_named_insert _ _ _ _ _ a' Hu eq_refl) as Hu'.
  rewrite Nat.sub_0_r in Hu'.
  assert (BranchRef (append_at (tick book) [i; j] op) renamed = BranchRef book ref)
    as Hsame.
  { unfold BranchRef, oplog.Book_HeadRef. rewrite Hwritten.
    cbn [renamed dsref.Username dsref.Name].
    destruct (String.eqb_spec (dsref.Username ref) EmptyString); [done|].
    destruct (String.eqb_spec (dsref.Name ref) EmptyString); [done|].
    destruct (String.eqb_spec newName EmptyString); [done|].
    cbn [oplog.descend]. rewrite Hu', Hu, Hd.
    unfold a'. cbn [oplog.with_Logs oplog.Logs].
    rewrite (find_named_renamed newName 0 _ j ds ds') by done.
    by rewrite Hlogs. }
  exists (append_at (tick book) [i; j] op).
  split; [|split; [|split]].
  - unfold WriteNameAmend. by rewrite Hread.
  - done.
  - intros offset limit. unfold LogEntries. by rewrite Hsame.
  - intros Hlater. unfold BranchRef, oplog.Book_HeadRef. rewrite Hwritten.
    destruct (String.eqb_spec (dsref.Username ref) EmptyString); [done|].
    destruct (String.eqb_spec (dsref.Name ref) EmptyString); [done|].
    cbn [oplog.descend]. rewrite Hu'.
    unfold a'. cbn [oplog.with_Logs oplog.Logs].
    pose proof (find_named_renamed_away _ _ _ _ _ ds' Hd) as Hgone.
    rewrite Nat.sub_0_r in Hgone. rewrite Hgone; [done| |done].
    rewrite Hrenamed. intros ->. by rewrite Hd in Hfresh.
Qed.
End RemoveRenameFacts.


(** ** Merging the log of another peer *)

Section MergeFacts.
Import logbook.
Context `{oplog.Primitives} `{Env}.
Implicit Types (book : Book) (ref : dsref.Ref) (l : oplog.Log) (ls : list oplog.Log).

Lemma find_named_app name k ls more r :
  oplog.find_named name k ls = Some r ->
  oplog.find_named name k (ls ++ more) = Some r.
Proof.
  revert k. induction ls as [|x ls IH]; intros k; simpl; [done|].
  destruct (String.eqb _ _); [done|]. apply IH.
Qed.

Lemma find_named_app_None name k ls more :
  oplog.find_named name k ls = None ->
  oplog.find_named name k (ls ++ more) = oplog.find_named name (k + length ls) more.
Proof.
  revert k. induction ls as [|x ls IH]; intros k; simpl.
  - intros _. by rewrite Nat.add_0_r.
  - destruct (String.eqb _ _); [done|]. intros Hnone. rewrite IH by done.
    f_equal. lia.
Qed.

(** A branch that is found in a book is found in the same place when logs
    are added after the logs of the book. *)
Lemma BranchRef_app book ref more p l :
  BranchRef book ref = Ok (p, l) ->
  BranchRef (with_bk book (oplog.with_logs (bk book) (oplog.logs (bk book) ++ more))) ref =
    Ok (p, l).
Proof.
  unfold BranchRef, oplog.Book_HeadRef.
  destruct (String.eqb _ _); [done|]. destruct (String.eqb _ _); [done|].
  cbn [bk with_bk oplog.logs oplog.with_logs oplog.descend].
  destruct (oplog.find_named (dsref.Username ref) 0 _) as [[i a]|] eqn:Ha; [|done].
  by rewrite (find_named_app _ _ _ more _ Ha).
Qed.

(** [MergeLog] of a log that verifies and whose id the book does not know:
    whoever the sender is and whatever the id of the log, the log is taken.
    Every branch that was found before is found as before, so [Versions]
    returns for its ref what it returned; and a dataset of the new log is
    found under the name of the log, when no log of the book had that name.
    This holds whether or not the save of the book returned an error. *)
Theorem MergeLog_new_log book sender lg :
  oplog.Log_Verify lg (oplog.Author_AuthorPubKey sender) = None ->
  oplog.Book_Log (bk book) (oplog.Log_ID lg) = Err oplog_ErrNotFound ->
  exists after err,
    MergeLog (Some book) sender lg = Returns (Some after, err) /\
    (forall ref p l, BranchRef book ref = Ok (p, l) ->
       BranchRef after ref = Ok (p, l) /\
       forall offset limit,
         Versions after ref offset limit = Versions book ref offset limit) /\
    (forall ref j ds k l,
       dsref.Username ref <> EmptyString -> dsref.Name ref <> EmptyString ->
       oplog.find_named (dsref.Username ref) 0 (oplog.logs (bk book)) = None ->
       oplog.Log_Name lg = dsref.Username ref ->
       oplog.find_named (dsref.Name ref) 0 (oplog.Logs lg) = Some (j, ds) ->
       oplog.find_named DefaultBranchName 0 (oplog.Logs ds) = Some (k, l) ->
       BranchRef after ref = Ok ([length (oplog.logs (bk book)); j; k], l)).
Proof.
  intros Hverify Hlog. unfold MergeLog. rewrite Hverify, Hlog. simpl.
  unfold oplog.Book_Log in Hlog.
  destruct (oplog.find_id_in _ _ _) eqn:Hfind; [done|].
  unfold oplog.Book_AppendLog. rewrite (find_id_in_None _ _ _ Hfind). simpl.
  set (merged := with_bk book (oplog.with_logs (bk book) (oplog.logs (bk book) ++ [lg]))).
  pose proof (save_bk merged) as Hbk.
  destruct (save merged) as [after err]. simpl in Hbk.
  exists after, err. split; [done|].
  assert (forall ref, BranchRef after ref = BranchRef merged ref) as Hafter.
  { intros ref. unfold BranchRef. by rewrite Hbk. }
  split.
  - intros ref p l Hbranch.
    pose proof (BranchRef_app _ _ [lg] _ _ Hbranch) as Hmerged. fold merged in Hmerged.
    split; [by rewrite Hafter|].
    intros offset limit. apply Versions_same_branch; try done.
    by rewrite Hafter, Hmerged, Hbranch.
  - intros ref j ds k l Huser Hname Hnone Hlg Hds Hmain. rewrite Hafter.
    unfold BranchRef, oplog.Book_HeadRef.
    destruct (String.eqb_spec (dsref.Username ref) EmptyString); [done|].
    destruct (String.eqb_spec (dsref.Name ref) EmptyString); [done|].
    cbn [merged bk with_bk oplog.logs oplog.with_logs oplog.descend].
    rewrite (find_named_snoc _ _ _ _ Hnone Hlg). simpl.
    by rewrite Hds, Hmain.
Qed.
End MergeFacts.


(** ** The properties on the books of alice *)

Lemma LogEntries_second_op :
  logbook.LogEntries (demo.book_with demo.three_saves) demo.weather 1 1 =
    Returns (Ok [demo.save_entry]).
Proof.
  apply (LogEntries_window (demo.book_with demo.three_saves) demo.weather 1 1
           [0; 0; 0] (demo.branch_log demo.three_saves)).
  reflexivity.
Defined.

Lemma LogEntries_two_of_three_saves :
  ((0 < 2)%Z -> (Z.of_nat (length [demo.save_entry; demo.save_entry]) <= 2)%Z) /\
  (forall p l,
      logbook.BranchRef (demo.book_with demo.three_saves) demo.weather = Ok (p, l) ->
      (Z.of_nat (length (oplog.Ops l)) <= 1)%Z ->
      [demo.save_entry; demo.save_entry] = []).
Proof.
  apply (LogEntries_bounds (demo.book_with demo.three_saves) demo.weather 1 2
           [demo.save_entry; demo.save_entry]).
  reflexivity.
Defined.

Lemma RawLogs_signed_and_unsigned :
  map spec.unsigned
    (oplog.logs (logbook.bk (demo.book_of [demo.bob_log (Some [Byte.x01])]))) =
  map spec.unsigned (oplog.logs (logbook.bk (demo.book_of [demo.bob_log None]))).
Proof.
  apply (RawLogs_inj (demo.book_of [demo.bob_log (Some [Byte.x01])])
           (demo.book_of [demo.bob_log None])).
  - reflexivity.
  - reflexivity.
  - reflexivity.
Defined.

Lemma UserDatasetRef_weather :
  exists user ds k,
    logbook.DatasetRef (demo.book_with demo.three_saves) demo.weather =
      Ok (take 2 [0; 0; 0], ds) /\
    oplog.deref (oplog.logs (logbook.bk (demo.book_with demo.three_saves)))
      (take 1 [0; 0; 0]) = Some user /\
    logbook.UserDatasetRef (demo.book_with demo.three_saves) demo.weather =
      Ok (oplog.MkLog (oplog.Ops user) [ds] None) /\
    oplog.Logs ds !! k = Some (demo.branch_log demo.three_saves) /\
    oplog.Log_Name (demo.branch_log demo.three_saves) = logbook.DefaultBranchName.
Proof.
  apply (BranchRef_UserDatasetRef (demo.book_with demo.three_saves) demo.weather
           [0; 0; 0] (demo.branch_log demo.three_saves)).
  reflexivity.
Defined.

Lemma DsrefAliasForLog_weather :
  logbook.DsrefAliasForLog (Some (demo.author_log demo.three_saves)) =
    Returns (Ok demo.weather).
Proof.
  destruct (DsrefAliasForLog_UserDatasetRef (demo.book_with demo.three_saves)
              demo.weather (demo.author_log demo.three_saves))
    as (m & Hmodel & Halias); [reflexivity|].
  injection Hmodel as <-. exact Halias.
Defined.

Lemma WriteVersionSave_fourth_version :
  exists after err,
    logbook.WriteVersionSave (Some (demo.book_with demo.three_saves))
      (demo.first_save "alice" "weather") = Returns (Some after, err) /\
    logbook.Versions after (logbook.refFromDataset (demo.first_save "alice" "weather"))
      0 10 =
      Returns (Ok [demo.first_info "weather"; demo.info "Qc" false;
                   demo.info "Qb" false; demo.info "Qa" false]).
Proof.
  destruct (WriteVersionSave_Versions (demo.book_with demo.three_saves)
               (demo.first_save "alice" "weather")
               {| logbook.Commit_Timestamp := 2000; logbook.Commit_Title := "first" |}
               [0; 0; 0] (demo.branch_log demo.three_saves) demo.three_versions 0 10)
    as (after & err & Hrun & Hversions).
  - reflexivity.
  - reflexivity.
  - reflexivity.
  - reflexivity.
  - lia.
  - lia.
  - exists after, err. split; [exact Hrun|exact Hversions].
Defined.

Lemma WriteVersionDelete_two_of_three :
  exists after err,
    logbook.WriteVersionDelete (Some (demo.book_with demo.three_saves)) demo.weather 2 =
      Returns (Some after, err) /\
    logbook.Versions after demo.weather 0 10 = Returns (Ok [demo.info "Qa" false]).
Proof.
  destruct (WriteVersionDelete_Versions (demo.book_with demo.three_saves) demo.weather 2
               [0; 0; 0] (demo.branch_log demo.three_saves) demo.three_versions 0 10)
    as (after & err & Hrun & Hversions).
  - reflexivity.
  - reflexivity.
  - reflexivity.
  - vm_compute. split; discriminate.
  - vm_compute. discriminate.
  - lia.
  - lia.
  - exists after, err. split; [exact Hrun|exact Hversions].
Defined.


Lemma WritePublish_two_of_three :
  exists after err,
    logbook.WritePublish (Some (demo.book_with demo.three_saves)) demo.weather 2 [] =
      Returns (Some after, err) /\
    logbook.Versions after demo.weather 0 10 =
      Returns (Ok [demo.info "Qc" true; demo.info "Qb" true; demo.info "Qa" false]).
Proof.
  destruct (WritePublish_Versions (demo.book_with demo.three_saves) demo.weather true 2 []
               [0; 0; 0] (demo.branch_log demo.three_saves) demo.three_versions 0 10)
    as (after & err & Hrun & Hversions).
  - reflexivity.
  - reflexivity.
  - reflexivity.
  - vm_compute. discriminate.
  - lia.
  - lia.
  - exists after, err. split; [exact Hrun|exact Hversions].
Defined.

Lemma WriteNameInit_climate_no_versions :
  exists after err,
    logbook.WriteNameInit (Some (demo.book_with demo.three_saves)) "climate" =
      Returns (Some after, err) /\
    logbook.Versions after demo.climate 0 10 = Returns (Ok []).
Proof.
  apply (WriteNameInit_Versions (demo.book_with demo.three_saves) demo.climate
           0 (demo.author_log demo.three_saves) 0 10).
  - discriminate.
  - discriminate.
  - reflexivity.
  - reflexivity.
  - reflexivity.
  - lia.
  - lia.
Defined.


Lemma RemoveLog_weather_keeps_climate :
  exists after err,
    logbook.RemoveLog (Some demo.two_datasets) demo.alice demo.weather =
      Returns (Some after, err) /\
    logbook.BranchRef after demo.weather = Err oplog_ErrNotFound /\
    logbook.Versions after demo.climate 0 10 =
      Returns (Ok [{| logbook.Ref := {| dsref.Username := "alice";
                                        dsref.ProfileID := EmptyString;
                                        dsref.Name := "climate";
                                        dsref.Path := "Qx" |};
                      logbook.Published := false; logbook.Timestamp := 0;
                      logbook.CommitTitle := EmptyString; logbook.Size := 0 |}]).
Proof.
  destruct (RemoveLog_by_owner demo.two_datasets demo.alice demo.weather 0 0 0
              (demo.branch_log demo.three_saves) demo.two_datasets_log)
    as (after & err & Hrun & _ & Hgone & Hothers).
  - reflexivity.
  - reflexivity.
  - reflexivity.
  - reflexivity.
  - exists after, err. split; [exact Hrun|]. split; [exact Hgone|].
    rewrite Hothers; [reflexivity|]. right. discriminate.
Defined.

Lemma WriteNameAmend_weather_to_climate :
  exists after,
    logbook.WriteNameAmend (Some (demo.book_with demo.three_saves)) demo.weather "climate" =
      Returns (Some after, None) /\
    logbook.BranchRef after demo.climate =
      Ok ([0; 0; 0], demo.branch_log demo.three_saves) /\
    logbook.BranchRef after demo.weather = Err oplog_ErrNotFound.
Proof.
  destruct (WriteNameAmend_renames (demo.book_with demo.three_saves) demo.weather
              "climate" 0 (demo.author_log demo.three_saves) 0
              (demo.dataset_log "weather" demo.three_saves))
    as (after & Hrun & Hfound & _ & Hgone).
  - discriminate.
  - discriminate.
  - discriminate.
  - reflexivity.
  - reflexivity.
  - reflexivity.
  - reflexivity.
  - reflexivity.
  - exists after. split; [exact Hrun|]. split; [exact Hfound|].
    apply Hgone. reflexivity.
Defined.

Lemma MergeLog_bob_rain :
  exists after err,
    logbook.MergeLog (Some (demo.book_with demo.three_saves)) demo.bob demo.bob_rain =
      Returns (Some after, err) /\
    logbook.Versions after demo.weather 0 10 =
      Returns (Ok [demo.info "Qc" false; demo.info "Qb" false; demo.info "Qa" false]) /\
    logbook.BranchRef after demo.rain =
      Ok ([1; 0; 0], demo.branch_log [demo.version oplog.OpTypeInit "Qr" 0]).
Proof.
  destruct (MergeLog_new_log (demo.book_with demo.three_saves) demo.bob demo.bob_rain)
    as (after & err & Hrun & Hold & Hnew).
  - reflexivity.
  - reflexivity.
  - exists after, err. split; [exact Hrun|]. split.
    + destruct (Hold demo.weather [0; 0; 0] (demo.branch_log demo.three_saves) eq_refl)
        as [_ Hversions].
      rewrite Hversions. reflexivity.
    + apply (Hnew demo.rain 0
               (demo.dataset_log "rain" [demo.version oplog.OpTypeInit "Qr" 0]));
        [discriminate|discriminate|reflexivity|reflexivity|reflexivity|reflexivity].
Defined.

Lemma WriteVersionAmend_third_version :
  exists after err,
    logbook.WriteVersionAmend (Some (demo.book_with demo.three_saves))
      (demo.second_save "alice" "weather") = Returns (Some after, err) /\
    logbook.Versions after (logbook.refFromDataset (demo.second_save "alice" "weather"))
      0 10 =
      Returns (Ok [demo.second_info "weather"; demo.info "Qb" false; demo.info "Qa" false]).
Proof.
  destruct (WriteVersionAmend_Versions (demo.book_with demo.three_saves)
              (demo.second_save "alice" "weather")
              {| logbook.Commit_Timestamp := 3000; logbook.Commit_Title := "second" |}
              [0; 0; 0] (demo.branch_log demo.three_saves) demo.three_versions 0 10)
    as (after & err & Hrun & Hversions).
  - reflexivity.
  - reflexivity.
  - reflexivity.
  - reflexivity.
  - lia.
  - lia.
  - exists after, err. split; [exact Hrun|exact Hversions].
Defined.
